(** * extract_stimulus_heading_for_camera: screen position to heading

    A shallow embedding of [extract_stimulus_heading_for_camera.py].

    Numbers.  The script computes with IEEE doubles through numpy and scipy.
    Here a double is an ideal real number, and a computation whose value is
    not a real number (a division by zero, that is numpy's [nan] and [inf])
    is [None].  Rounding is therefore outside this development: an equation
    proved below holds in the script up to the rounding of its operations.

    Library calls.  [np.cos], [np.sin], [np.arctan2], [np.searchsorted],
    [np.clip], [np.argsort], scipy's [interp1d], [os.path.basename],
    [os.path.join], [str.split] and [str.endswith] are modelled from their
    documented behaviour, under the names they have in the script.

    Effects.  A call is a function of the [world] (the text files written so
    far and the lines printed) that returns a value or raises, together
    with the world it leaves behind.  What is read (archives, the
    calibration file, the directory listing) is given by oracles.  Writing
    is taken to succeed: the output directory exists and is writable. *)

From Stdlib Require Import Reals Lra Lia ZArith Ascii.
From stdpp Require Import gmap strings list sorting.

(** ** Exceptions *)

Inductive exn : Type :=
  | ValueError (msg : string)
  | KeyError (key : string)
  | OSError (msg : string)
  | ParserError (msg : string).

(** [str(e)] as it appears in a printed diagnostic. *)
Definition str_of_exn (e : exn) : string :=
  match e with
  | ValueError m => m
  | KeyError k => "'" +:+ k +:+ "'"
  | OSError m => m
  | ParserError m => m
  end.

(** A pure call that may raise: [inl e] is the exception, [inr a] the
    value. *)
#[global] Instance exn_bind : MBind (sum exn) :=
  λ A B f m, match m with inl e => inl e | inr a => f a end.

(** ** numpy and scipy *)

Module np.
Local Open Scope R_scope.

(** A double: a real number, or [None] for the outcome of a computation
    that divides by zero. *)
Definition float64 : Type := option R.

(** [np.arctan2 y x]: the angle of the point [(x, y)], in (-PI, PI];
    [arctan2 0 0] is [0]. *)
Definition arctan2 (y x : R) : R :=
  if Rlt_dec 0 x then atan (y / x)
  else if Rlt_dec x 0 then
    if Rle_dec 0 y then atan (y / x) + PI else atan (y / x) - PI
  else if Rlt_dec 0 y then PI / 2
  else if Rlt_dec y 0 then - (PI / 2)
  else 0.

(** [a / b] on doubles: not a real number when [b] is zero. *)
Definition divide (a b : R) : float64 :=
  if Req_dec_T b 0 then None else Some (a / b).

(** [np.searchsorted xs v] (side ['left']) on an ascending array: the
    number of leading entries below [v]. *)
Fixpoint searchsorted (xs : list R) (v : R) : nat :=
  match xs with
  | [] => 0
  | a :: xs' => if Rlt_dec a v then S (searchsorted xs' v) else 0
  end.

(** [np.clip i lo hi] is [minimum (maximum i lo) hi]. *)
Definition clip (i lo hi : Z) : Z := Z.min (Z.max i lo) hi.

(** [a[i]] with Python's negative indices; [None] out of range. *)
Definition getitem (a : list R) (i : Z) : option R :=
  let n := Z.of_nat (length a) in
  if decide (0 ≤ i < n)%Z then a !! Z.to_nat i
  else if decide (- n ≤ i < 0)%Z then a !! Z.to_nat (i + n)
  else None.

(** [x[ind], y[ind]] for [ind = np.argsort x kind='mergesort']: the pairs
    in ascending order of [x], equal keys in their original order. *)
Fixpoint insert_by_x (p : R * R) (l : list (R * R)) : list (R * R) :=
  match l with
  | [] => [p]
  | q :: l' =>
      if Rle_dec (fst p) (fst q) then p :: q :: l'
      else q :: insert_by_x p l'
  end.

Fixpoint argsort_take (l : list (R * R)) : list (R * R) :=
  match l with
  | [] => []
  | p :: l' => insert_by_x p (argsort_take l')
  end.

End np.

Module interpolate.
Local Open Scope R_scope.

(** The state of an [interp1d] object of kind ['linear'] with
    [fill_value='extrapolate']: the sorted abscissae and their ordinates. *)
Record interp1d : Type := Build_interp1d { ip_x : list R; ip_y : list R }.

(** The constructor.  [minval] is the least number of samples the library
    accepts for a linear interpolant (1 or 2, by release); fewer raise.
    The samples are sorted by abscissa; nothing else is checked. *)
Definition init (minval : nat) (x y : list R) : exn + interp1d :=
  let s := np.argsort_take (zip x y) in
  if decide (length x < minval)%nat
  then inl (ValueError "x and y arrays must have at least minval entries")
  else inr (Build_interp1d (s.*1) (s.*2)).

(** [_call_linear]: the segment is chosen by [searchsorted] clipped to
    [1 .. n-1], so that the first and the last segment extrapolate. *)
Definition call_linear (f : interp1d) (x_new : R) : np.float64 :=
  let n := Z.of_nat (length (ip_x f)) in
  let i := np.clip (Z.of_nat (np.searchsorted (ip_x f) x_new)) 1 (n - 1) in
  let lo := (i - 1)%Z in
  let hi := i in
  x_lo ← np.getitem (ip_x f) lo;
  x_hi ← np.getitem (ip_x f) hi;
  y_lo ← np.getitem (ip_y f) lo;
  y_hi ← np.getitem (ip_y f) hi;
  slope ← np.divide (y_hi - y_lo) (x_hi - x_lo);
  Some (slope * (x_new - x_lo) + y_lo).

End interpolate.

(** ** The calibration table and the heading function *)

(** A parsed calibration source: the rows [(screen, heading)]. *)
Definition calibration : Type := list (R * R).

Definition SCREEN2HEADING_DATA : calibration :=
  [ (0, 2.3513283485530456);
    (80, 1.2179812647799937);
    (160, 0.5031545295746856);
    (240, -0.3078141744904855);
    (320, -0.8746949393526915);
    (400, -1.5019022477483523);
    (480, -2.185375561680841);
    (560, -3.0123437340031307);
    (640, 2.3513283485530456) ]%R.

(** The closure [get_heading] over the two interpolants [f_x] and [f_y]. *)
Definition get_heading (f_x f_y : interpolate.interp1d)
    (screen_value : np.float64) : np.float64 :=
  sv ← screen_value;
  interp_x ← interpolate.call_linear f_x sv;
  interp_y ← interpolate.call_linear f_y sv;
  Some (np.arctan2 interp_y interp_x).

(** [screen2heading] is the table read from [screen2heading_path]; [None]
    stands for the absent argument, which selects the built-in table. *)
Definition create_interpolation_function (minval : nat)
    (screen2heading : option calibration)
    : exn + (np.float64 → np.float64) :=
  let table := default SCREEN2HEADING_DATA screen2heading in
  let screen_values := table.*1 in
  let heading_values := table.*2 in
  let x := cos <$> heading_values in
  let y := sin <$> heading_values in
  f_x ← interpolate.init minval screen_values x;
  f_y ← interpolate.init minval screen_values y;
  inr (get_heading f_x f_y).

(** ** Strings and paths *)

(** The line terminator written after each row. *)
Definition NL : string := String (Ascii.ascii_of_nat 10) EmptyString.

(** [s.split(sep)[0]]: the text before the first [sep], all of [s] when
    there is none. *)
Fixpoint split_head (sep : Ascii.ascii) (s : string) : string :=
  match s with
  | EmptyString => EmptyString
  | String c s' =>
      if decide (c = sep) then EmptyString else String c (split_head sep s')
  end.

(** [s.endswith(suffix)]. *)
Definition endswith (s suffix : string) : bool :=
  String.prefix (String.rev suffix) (String.rev s).

(** [s.startswith("/")]. *)
Definition startswith_sep (s : string) : bool :=
  match s with
  | String c _ => bool_decide (c = "/"%char)
  | EmptyString => false
  end.

Module os_path.

(** [os.path.basename p]: the text after the last ["/"]. *)
Fixpoint basename_from (acc p : string) : string :=
  match p with
  | EmptyString => acc
  | String c p' =>
      if decide (c = "/"%char) then basename_from EmptyString p'
      else basename_from (acc +:+ String c EmptyString) p'
  end.

Definition basename (p : string) : string := basename_from EmptyString p.

(** One step of [os.path.join]: an absolute component restarts the path,
    a separator is added unless the path is empty or ends with one. *)
Definition join2 (path b : string) : string :=
  if startswith_sep b then b
  else if bool_decide (path = EmptyString) || endswith path "/"
  then path +:+ b
  else path +:+ "/" +:+ b.

Definition join (a : string) (p : list string) : string := foldl join2 a p.

(** [os.path.splitext p][0] for a name without directories: the text
    before the last ["."], leading dots not counted. *)
Fixpoint has_dot (s : string) : bool :=
  match s with
  | EmptyString => false
  | String c s' => bool_decide (c = "."%char) || has_dot s'
  end.

Fixpoint splitext_root_body (s : string) : string :=
  match s with
  | EmptyString => EmptyString
  | String c s' =>
      if bool_decide (c = "."%char) && negb (has_dot s') then EmptyString
      else String c (splitext_root_body s')
  end.

Fixpoint splitext_root (s : string) : string :=
  match s with
  | String "." s' => String "." (splitext_root s')
  | _ => splitext_root_body s
  end.

End os_path.

(** ** The world: files written and lines printed *)

Record world : Type := World {
  files : gmap string string;
  stdout : list string
}.

Definition M (A : Type) : Type := world → (exn + A) * world.

#[global] Instance M_ret : MRet M := λ A a w, (inr a, w).

#[global] Instance M_bind : MBind M := λ A B f m w,
  match m w with
  | (inl e, w') => (inl e, w')
  | (inr a, w') => f a w'
  end.

Definition raise {A : Type} (e : exn) : M A := λ w, (inl e, w).

Definition lift {A : Type} (r : exn + A) : M A := λ w, (r, w).

(** [try: body  except Exception as e: handler e]. *)
Definition try_except {A : Type} (body : M A) (handler : exn → M A) : M A :=
  λ w, match body w with
       | (inl e, w') => handler e w'
       | (inr a, w') => (inr a, w')
       end.

Definition print (line : string) : M unit :=
  λ w, (inr (), World (files w) (stdout w ++ [line])).

(** [with open(filename, "w") as f: f.write(text)], for a file that can be
    opened for writing.  Standing assumption of this development: the
    output directory exists and is writable.  An [open] that fails (it
    would raise [OSError], outside any [try] block) is not modelled, and
    nothing below is stated about such a run. *)
Definition open_w_write (filename text : string) : M unit :=
  λ w, (inr (), World (<[filename := text]> (files w)) (stdout w)).

(** [with open(filename, "a") as f: f.write(text)], under the same
    assumption. *)
Definition open_a_write (filename text : string) : M unit :=
  λ w, (inr (),
        World (<[filename := default EmptyString (files w !! filename) +:+ text]>
                 (files w))
              (stdout w)).

(** [for a in l: body a]. *)
Fixpoint for_each {A : Type} (l : list A) (body : A → M unit) : M unit :=
  match l with
  | [] => mret ()
  | a :: l' => body a;; for_each l' body
  end.

(** ** Writing the output file *)

Definition csv_header : string := "obj_id,frame,stim_heading" +:+ NL.

Definition initialize_csv_writer (filename : string) : M string :=
  open_w_write filename csv_header;;
  mret filename.

(** A row of the table ([pandas.Series]) maps a column label to a cell; a
    table is the list of its rows; an opened archive gives, for each member
    name, what [pd.read_csv] makes of the member. *)
Abbreviation Series V := (gmap string V) (only parsing).
Abbreviation DataFrame V := (list (gmap string V)) (only parsing).
Abbreviation ZipFile V := (gmap string (exn + list (gmap string V))) (only parsing).

Section Batch.

(** The type of a table cell, and [str] of a cell as an f-string prints
    it. *)
Variable V : Type.
Variable str : V → string.

(** [zipfile.ZipFile(open_filename_or_url(path))]: the archive at a path or
    URL, or the exception raised on the way. *)
Variable open_zip : string → exn + ZipFile V.

Definition csv_row (obj_id frame stim_heading : V) : string :=
  str obj_id +:+ "," +:+ str frame +:+ "," +:+ str stim_heading +:+ NL.

Definition write_to_csv (filename : string) (obj_id frame stim_heading : V)
    : M unit :=
  open_a_write filename (csv_row obj_id frame stim_heading).

(** [row[key]]. *)
Definition getcol (row : Series V) (key : string) : M V :=
  match row !! key with
  | Some v => mret v
  | None => raise (KeyError key)
  end.

(** [pd.read_csv(z.open(name))]. *)
Definition read_csv (z : ZipFile V) (name : string) : M (DataFrame V) :=
  match z !! name with
  | Some r => lift r
  | None => raise (KeyError name)
  end.

(** The body of the [try] block of [process_braidz_file]; [None] is its
    [return False]. *)
Definition read_stim (braidz_path : string) : M (option (DataFrame V)) :=
  z ← lift (open_zip braidz_path);
  if decide ("stim.csv" ∈ dom z) then
    stim ← read_csv z "stim.csv"; mret (Some stim)
  else if decide ("opto.csv" ∈ dom z) then
    stim ← read_csv z "opto.csv"; mret (Some stim)
  else
    print ("No stim or opto data found in " +:+ braidz_path);;
    mret None.

(** The name of the output file of an archive. *)
Definition output_file_of (braidz_path output_path : string) : string :=
  let file_basename :=
    split_head "." (os_path.basename braidz_path) +:+ ".csv" in
  os_path.join output_path [file_basename].

(** The body of the loop over the rows. *)
Definition process_row (csv_file : string) (get_heading_func : V → V)
    (row : Series V) : M unit :=
  obj_id ← getcol row "obj_id";
  frame ← getcol row "frame";
  stim_heading ←
    (if decide ("stim_position_screen" ∉ dom row)
     then getcol row "heading"
     else getcol row "stim_position_screen");
  let stim_heading := get_heading_func stim_heading in
  write_to_csv csv_file obj_id frame stim_heading.

Definition process_braidz_file (braidz_path output_path : string)
    (get_heading_func : V → V) : M bool :=
  r ← try_except (read_stim braidz_path)
        (λ e, print ("Error reading " +:+ braidz_path +:+ ": "
                     +:+ str_of_exn e);;
              mret None);
  match r with
  | None => mret false
  | Some stim =>
      let output_file := output_file_of braidz_path output_path in
      csv_file ← initialize_csv_writer output_file;
      for_each stim (process_row csv_file get_heading_func);;
      print ("Interpolated " +:+ braidz_path +:+ " to " +:+ output_file);;
      mret true
  end.

(** *** Vocabulary of the statements below *)

(** The cells [process_row] writes for a row that has the columns it
    reads. *)
Definition row_cells (get_heading_func : V → V) (row : Series V)
    : option (V * V * V) :=
  obj_id ← row !! "obj_id";
  frame ← row !! "frame";
  raw ← (if decide ("stim_position_screen" ∉ dom row)
         then row !! "heading"
         else row !! "stim_position_screen");
  Some (obj_id, frame, get_heading_func raw).

(** The text of the rows of an output file. *)
Definition csv_rows (cells : list (V * V * V)) : string :=
  foldr (λ '(obj_id, frame, stim_heading) text,
           csv_row obj_id frame stim_heading +:+ text)
        EmptyString cells.

(** The archive at [path] gives no table: it cannot be opened, the member
    that would be read cannot be parsed, or it has neither member. *)
Definition read_fails (path : string) : Prop :=
  match open_zip path with
  | inl _ => True
  | inr z =>
      match z !! "stim.csv", z !! "opto.csv" with
      | Some (inl _), _ => True
      | Some (inr _), _ => False
      | None, Some (inl _) => True
      | None, Some (inr _) => False
      | None, None => True
      end
  end.

(** The loop of [main] over the archives found in a directory. *)
Definition process_all (braidz_files : list string) (output_path : string)
    (get_heading_func : V → V) : M unit :=
  for_each braidz_files
    (λ braidz_file,
       process_braidz_file braidz_file output_path get_heading_func;;
       mret ()).

End Batch.

(** ** The command *)

Record Namespace : Type := Build_Namespace {
  braidz_path : string;
  output_path : string;
  screen2heading_path : option string;
  recursive : bool
}.

Section Main.

Variable minval : nat.
Variable str : np.float64 → string.
Variable open_zip : string → exn + ZipFile np.float64.

(** [pd.read_csv(path)] and the selection of its two columns. *)
Variable read_calibration : string → exn + calibration.

(** [os.path.exists], [os.path.isfile], [os.path.isdir] and [glob.glob]
    on the input side of the file system. *)
Variable path_exists : string → bool.
Variable isfile : string → bool.
Variable isdir : string → bool.
Variable glob : string → bool → list string.

(** [os.makedirs] leaves no text file behind; only its message is kept.
    It is taken to succeed, under the standing assumption on the output
    directory: an [OSError] of [os.makedirs] is not modelled. *)
Definition main (args : Namespace) : M unit :=
  (if path_exists (output_path args) then mret ()
   else print ("Created output directory: " +:+ output_path args));;
  screen2heading ←
    match screen2heading_path args with
    | None => mret None
    | Some p => c ← lift (read_calibration p); mret (Some c)
    end;
  get_heading_func ← lift (create_interpolation_function minval screen2heading);
  if isfile (braidz_path args) && endswith (braidz_path args) ".braidz" then
    process_braidz_file np.float64 str open_zip (braidz_path args)
      (output_path args) get_heading_func;;
    print "Processing complete!"
  else if isdir (braidz_path args) then
    let pattern :=
      os_path.join (braidz_path args)
        [if recursive args then "**" else ""; "*.braidz"] in
    let braidz_files := glob pattern (recursive args) in
    if bool_decide (braidz_files = []) then
      print ("No braidz files found in " +:+ braidz_path args)
    else
      process_all np.float64 str open_zip braidz_files (output_path args)
        get_heading_func;;
      print "Processing complete!"
  else
    print ("Error: " +:+ braidz_path args
           +:+ " is not a valid braidz file or directory").

End Main.

(** ** The output name as the specification words it

    Follows the specification, not the script: the base name of the
    archive without its extension ([os.path.splitext]), then [.csv]. *)
Definition output_file_spec (braidz_path output_path : string) : string :=
  os_path.join output_path
    [os_path.splitext_root (os_path.basename braidz_path) +:+ ".csv"].

(** ** Sample inputs *)

Definition stim_rows : DataFrame np.float64 :=
  [ {[ "obj_id" := Some 1%R; "frame" := Some 10%R;
       "stim_position_screen" := Some 0%R ]};
    {[ "obj_id" := Some 1%R; "frame" := Some 11%R;
       "stim_position_screen" := Some 320%R ]} ].

Definition heading_row : Series np.float64 :=
  {[ "obj_id" := Some 1%R; "frame" := Some 10%R; "heading" := Some 1%R ]}.

Definition malformed_row : Series np.float64 :=
  {[ "obj_id" := Some 1%R; "frame" := Some 10%R ]}.

Definition sample_open_zip (path : string) : exn + ZipFile np.float64 :=
  if decide (path = "data/fly.braidz") then
    inr {[ "stim.csv" := inr stim_rows ]}
  else if decide (path = "data/opto.braidz") then
    inr {[ "opto.csv" := inr [heading_row] ]}
  else if decide (path = "data/both.braidz") then
    inr {[ "stim.csv" := inr stim_rows; "opto.csv" := inr [heading_row] ]}
  else if decide (path = "data/bad.braidz") then
    inr {[ "stim.csv" := inr [malformed_row] ]}
  else if decide (path = "data/empty.braidz") then
    inr {[ "stim.csv" := inr [] ]}
  else if decide (path = "data/none.braidz") then
    inr {[ "kalman_estimates.csv" := inr [] ]}
  else inl (OSError "No such file or directory").

(** The text of a cell plays no part below. *)
Definition sample_str (v : np.float64) : string := "#".

Definition sample_read_calibration (path : string) : exn + calibration :=
  if decide (path = "one_row.csv") then inr [(0, 0)]%R
  else inl (OSError "No such file or directory").

Definition sample_isdir (path : string) : bool := bool_decide (path = "data").

Definition sample_glob (pattern : string) (recursive : bool) : list string :=
  if decide (pattern = "data/*.braidz")
  then ["data/bad.braidz"; "data/fly.braidz"]
  else [].

(** ** Further vocabulary and sample inputs *)

(** [c in s]. *)
Fixpoint str_contains (c : Ascii.ascii) (s : string) : bool :=
  match s with
  | EmptyString => false
  | String a s' => bool_decide (a = c) || str_contains c s'
  end.

(** Two archives of the same file name in two directories. *)
Definition twin_open_zip (path : string) : exn + ZipFile np.float64 :=
  if decide (path = "data/a/fly.braidz") then
    inr {[ "stim.csv" := inr stim_rows ]}
  else if decide (path = "data/b/fly.braidz") then
    inr {[ "opto.csv" := inr [heading_row] ]}
  else inl (OSError "No such file or directory").

(** A table that has no [frame] column: its rows have the columns
    [obj_id] and [heading]. *)
Definition frameless_rows : DataFrame np.float64 :=
  [ {[ "obj_id" := Some 1%R; "heading" := Some 1%R ]};
    {[ "obj_id" := Some 2%R; "heading" := Some 0%R ]} ].

Definition frameless_open_zip (path : string) : exn + ZipFile np.float64 :=
  if decide (path = "data/frameless.braidz") then
    inr {[ "opto.csv" := inr frameless_rows ]}
  else inl (OSError "No such file or directory").

(** A row that has both source columns. *)
Definition mixed_row : Series np.float64 :=
  {[ "obj_id" := Some 1%R; "frame" := Some 10%R; "heading" := Some 1%R;
     "stim_position_screen" := Some 160%R ]}.

Section MainInputs.

Variable isfile : string → bool.
Variable isdir : string → bool.
Variable glob : string → bool → list string.

(** The archives [main] hands to [process_braidz_file], in order. *)
Definition main_inputs (args : Namespace) : list string :=
  if isfile (braidz_path args) && endswith (braidz_path args) ".braidz" then
    [braidz_path args]
  else if isdir (braidz_path args) then
    glob (os_path.join (braidz_path args)
            [if recursive args then "**" else ""; "*.braidz"])
         (recursive args)
  else [].

End MainInputs.

(** The heading function [main] obtains from its calibration argument, or
    the exception raised on the way: reading the file when a path is given,
    then the construction. *)
Definition calibration_of (minval : nat)
    (read_calibration : string → exn + calibration) (args : Namespace)
    : exn + (np.float64 → np.float64) :=
  match screen2heading_path args with
  | None => create_interpolation_function minval None
  | Some path =>
      c ← read_calibration path;
      create_interpolation_function minval (Some c)
  end.

(** * Properties *)

(** ** Strings and paths, by evaluation *)

Example basename_nested :
  os_path.basename "data/run1/fly.braidz" = "fly.braidz".
Proof. reflexivity. Qed.

Example join_plain : os_path.join "out" ["fly.csv"] = "out/fly.csv".
Proof. reflexivity. Qed.

Example join_trailing_sep : os_path.join "out/" ["fly.csv"] = "out/fly.csv".
Proof. reflexivity. Qed.

Example join_pattern :
  os_path.join "data" [""; "*.braidz"] = "data/*.braidz".
Proof. reflexivity. Qed.

Example endswith_braidz : endswith "data/fly.braidz" ".braidz" = true.
Proof. reflexivity. Qed.

Example splitext_two_dots : os_path.splitext_root "fly.v2.braidz" = "fly.v2".
Proof. reflexivity. Qed.

Example splitext_hidden : os_path.splitext_root ".fly.braidz" = ".fly".
Proof. reflexivity. Qed.

(** ** The two-argument arctangent *)

Local Open Scope R_scope.

Lemma atan_nonpos (t : R) : t <= 0 → atan t <= 0.
Proof.
  intros [Ht | ->]; [| rewrite atan_0; lra].
  pose proof (atan_increasing t 0 Ht) as H. rewrite atan_0 in H. lra.
Qed.

Lemma atan_pos (t : R) : 0 < t → 0 < atan t.
Proof.
  intros Ht. pose proof (atan_increasing 0 t Ht) as H.
  rewrite atan_0 in H. exact H.
Qed.

Lemma div_neg_sign (y x : R) :
  x < 0 → (0 <= y → y / x <= 0) ∧ (y < 0 → 0 < y / x).
Proof.
  intros Hx. pose proof (Rinv_lt_0_compat x Hx) as Hi.
  unfold Rdiv. split; intros Hy; nra.
Qed.

Lemma arctan2_range (y x : R) : - PI < np.arctan2 y x <= PI.
Proof.
  pose proof PI_RGT_0 as Hpi.
  unfold np.arctan2.
  destruct (Rlt_dec 0 x) as [Hx | Hx].
  { pose proof (atan_bound (y / x)). lra. }
  destruct (Rlt_dec x 0) as [Hx' | Hx'].
  - pose proof (atan_bound (y / x)) as Hb.
    destruct (div_neg_sign y x Hx') as [Hle Hlt].
    destruct (Rle_dec 0 y) as [Hy | Hy].
    + pose proof (atan_nonpos _ (Hle Hy)). lra.
    + assert (y < 0) as Hy' by lra.
      pose proof (atan_pos _ (Hlt Hy')). lra.
  - destruct (Rlt_dec 0 y); [lra |].
    destruct (Rlt_dec y 0); lra.
Qed.

(** Where an angle of (-PI, PI] lies, from the signs of its cosine and
    sine. *)
Lemma cos_pos_quadrant (h : R) :
  - PI < h <= PI → 0 < cos h → - (PI / 2) < h < PI / 2.
Proof.
  intros [Hl Hu] Hc. split.
  - destruct (Rlt_dec (- (PI / 2)) h) as [|Hn]; [done |].
    assert (cos (- h) <= 0) as H.
    { apply cos_le_0; lra. }
    rewrite cos_neg in H. lra.
  - destruct (Rlt_dec h (PI / 2)) as [|Hn]; [done |].
    assert (cos h <= 0) as H by (apply cos_le_0; lra). lra.
Qed.

Lemma cos_neg_quadrant (h : R) :
  - PI < h <= PI → cos h < 0 →
  (0 <= sin h → PI / 2 < h) ∧ (sin h < 0 → h < - (PI / 2)).
Proof.
  intros [Hl Hu] Hc.
  assert (¬ (- (PI / 2) <= h <= PI / 2)) as Hout.
  { intros [H1 H2]. pose proof (cos_ge_0 h H1 H2). lra. }
  split; intros Hs.
  - destruct (Rlt_dec (PI / 2) h) as [|Hn]; [done |].
    assert (sin h < 0) by (apply sin_lt_0_var; lra). lra.
  - destruct (Rlt_dec h (- (PI / 2))) as [|Hn]; [done |].
    assert (0 <= sin h) by (apply sin_ge_0; lra). lra.
Qed.

Lemma tan_shift (h k : R) :
  cos h ≠ 0 → sin k = - sin h → cos k = - cos h → sin h / cos h = tan k.
Proof.
  intros Hc Hs Hk. unfold tan. rewrite Hs, Hk. field. exact Hc.
Qed.

Lemma arctan2_sin_cos (h : R) :
  - PI < h <= PI → np.arctan2 (sin h) (cos h) = h.
Proof.
  intros Hh. pose proof PI_RGT_0 as Hpi. unfold np.arctan2.
  destruct (Rlt_dec 0 (cos h)) as [Hc | Hc].
  { apply cos_pos_quadrant in Hc; [| done].
    change (sin h / cos h) with (tan h). apply atan_tan. lra. }
  destruct (Rlt_dec (cos h) 0) as [Hc' | Hc'].
  - destruct (cos_neg_quadrant h Hh Hc') as [Hq1 Hq2].
    assert (cos h ≠ 0) as Hne by lra.
    destruct (Rle_dec 0 (sin h)) as [Hs | Hs].
    + specialize (Hq1 Hs).
      rewrite (tan_shift h (h - PI)); [| done | |].
      * rewrite atan_tan; lra.
      * rewrite sin_minus, cos_PI, sin_PI. ring.
      * rewrite cos_minus, cos_PI, sin_PI. ring.
    + assert (h < - (PI / 2)) as Hq by (apply Hq2; lra).
      rewrite (tan_shift h (h + PI)); [| done | |].
      * rewrite atan_tan; lra.
      * rewrite sin_plus, cos_PI, sin_PI. ring.
      * rewrite cos_plus, cos_PI, sin_PI. ring.
  - assert (cos h = 0) as Hz by lra.
    pose proof (sin2_cos2 h) as Hsq. rewrite Hz in Hsq.
    unfold Rsqr in Hsq.
    assert (h = PI / 2 ∨ h = - (PI / 2)) as [-> | ->].
    { destruct (Rlt_dec h (- (PI / 2))) as [H1 | H1].
      { assert (cos (- h) < 0) as H by (apply cos_lt_0; lra).
        rewrite cos_neg in H. lra. }
      destruct (Rlt_dec (PI / 2) h) as [H2 | H2].
      { assert (cos h < 0) as H by (apply cos_lt_0; lra). lra. }
      destruct (Req_dec_T h (PI / 2)) as [|H3]; [by left |].
      destruct (Req_dec_T h (- (PI / 2))) as [|H4]; [by right |].
      assert (0 < cos h) by (apply cos_gt_0; lra). lra. }
    + rewrite sin_PI2.
      destruct (Rlt_dec 0 1); [done | lra].
    + rewrite sin_neg, sin_PI2.
      destruct (Rlt_dec 0 (- (1))); [lra |].
      destruct (Rlt_dec (- (1)) 0); [done | lra].
Qed.

(** ** Sorting the samples *)

Section Sorting.
Implicit Types (p q : R * R) (l s : list (R * R)).

Lemma insert_by_x_perm p l : np.insert_by_x p l ≡ₚ p :: l.
Proof.
  induction l as [|q l IH]; simpl; [done |].
  destruct (Rle_dec p.1 q.1); [done |].
  rewrite IH. apply Permutation_swap.
Qed.

Lemma argsort_take_perm l : np.argsort_take l ≡ₚ l.
Proof.
  induction l as [|p l IH]; simpl; [done |].
  by rewrite insert_by_x_perm, IH.
Qed.

Lemma insert_by_x_sorted p l :
  StronglySorted Rlt l.*1 → p.1 ∉ l.*1 →
  StronglySorted Rlt (np.insert_by_x p l).*1.
Proof.
  induction l as [|q l IH]; simpl; intros Hs Hp.
  { repeat constructor. }
  apply StronglySorted_inv in Hs as [Hs Hq].
  apply not_elem_of_cons in Hp as [Hne Hp].
  destruct (Rle_dec p.1 q.1) as [Hle | Hgt]; simpl.
  - assert (p.1 < q.1) as Hlt by lra.
    constructor; [by constructor |].
    constructor; [done |].
    eapply Forall_impl; [exact Hq |]. simpl. intros; lra.
  - constructor; [by apply IH |].
    rewrite insert_by_x_perm. simpl.
    constructor; [lra | done].
Qed.

Lemma argsort_take_sorted l :
  NoDup l.*1 → StronglySorted Rlt (np.argsort_take l).*1.
Proof.
  induction l as [|p l IH]; simpl; intros Hnd.
  { constructor. }
  apply NoDup_cons in Hnd as [Hp Hnd].
  apply insert_by_x_sorted; [by apply IH |].
  by rewrite argsort_take_perm.
Qed.

End Sorting.

Lemma sorted_lookup_lt (xs : list R) (a b : nat) (u w : R) :
  StronglySorted Rlt xs → xs !! a = Some u → xs !! b = Some w →
  (a < b)%nat → u < w.
Proof.
  intros Hs. revert a b. induction Hs as [|x xs Hs IH Hx]; intros a b Ha Hb Hab.
  { done. }
  destruct b as [|b]; [lia |]. simpl in Hb.
  destruct a as [|a]; simpl in Ha.
  - simplify_eq. rewrite Forall_forall in Hx. apply Hx.
    by eapply list_elem_of_lookup_2.
  - eapply IH; [done.. | lia].
Qed.

Lemma searchsorted_at_sample (xs : list R) (k : nat) (v : R) :
  StronglySorted Rlt xs → xs !! k = Some v → np.searchsorted xs v = k.
Proof.
  intros Hs. revert k. induction Hs as [|x xs Hs IH Hx]; intros k Hk.
  { done. }
  destruct k as [|k]; simpl in *.
  - simplify_eq. destruct (Rlt_dec v v); [lra | done].
  - assert (x < v) as Hlt.
    { rewrite Forall_forall in Hx. apply Hx. by eapply list_elem_of_lookup_2. }
    destruct (Rlt_dec x v); [| lra]. f_equal. by apply IH.
Qed.

Lemma getitem_nat (a : list R) (i : nat) :
  (i < length a)%nat → np.getitem a (Z.of_nat i) = a !! i.
Proof.
  intros Hi. unfold np.getitem.
  case_decide; [by rewrite Nat2Z.id | lia].
Qed.

(** ** The linear interpolant *)

Import interpolate.

(** The clipped segment index lies in [1 .. n-1] when there are two
    samples or more. *)
Lemma clip_segment (i : nat) (n : nat) :
  (2 ≤ n)%nat →
  ∃ j : nat, np.clip (Z.of_nat i) 1 (Z.of_nat n - 1) = Z.of_nat (S j)
             ∧ (S j < n)%nat
             ∧ (S j = i ∨ (i = 0%nat ∧ j = 0%nat) ∨ (n ≤ i)%nat).
Proof.
  intros Hn. unfold np.clip.
  destruct (decide (i = 0%nat)) as [-> | Hi].
  { exists 0%nat. split; [lia |]. split; [lia | auto]. }
  destruct (decide (i < n)%nat) as [Hlt | Hge].
  - exists (Nat.pred i). split; [lia |]. split; [lia |]. left. lia.
  - exists (n - 2)%nat. split; [lia |]. split; [lia |]. right. right. lia.
Qed.

Lemma call_linear_segment (f : interp1d) (x_new : R) (j : nat) :
  length (ip_y f) = length (ip_x f) →
  np.clip (Z.of_nat (np.searchsorted (ip_x f) x_new)) 1
     (Z.of_nat (length (ip_x f)) - 1) = Z.of_nat (S j) →
  (S j < length (ip_x f))%nat →
  ∃ x_lo x_hi y_lo y_hi,
    ip_x f !! j = Some x_lo ∧ ip_x f !! S j = Some x_hi ∧
    ip_y f !! j = Some y_lo ∧ ip_y f !! S j = Some y_hi ∧
    call_linear f x_new =
      slope ← np.divide (y_hi - y_lo) (x_hi - x_lo);
      Some (slope * (x_new - x_lo) + y_lo).
Proof.
  intros Hlen Hclip Hj.
  destruct (lookup_lt_is_Some_2 (ip_x f) j) as [x_lo Hxl]; [lia |].
  destruct (lookup_lt_is_Some_2 (ip_x f) (S j)) as [x_hi Hxh]; [lia |].
  destruct (lookup_lt_is_Some_2 (ip_y f) j) as [y_lo Hyl]; [lia |].
  destruct (lookup_lt_is_Some_2 (ip_y f) (S j)) as [y_hi Hyh]; [lia |].
  exists x_lo, x_hi, y_lo, y_hi. repeat (split; [done |]).
  unfold call_linear. rewrite Hclip.
  replace (Z.of_nat (S j) - 1)%Z with (Z.of_nat j) by lia.
  rewrite !getitem_nat by lia.
  rewrite Hxl, Hxh, Hyl, Hyh. reflexivity.
Qed.


(** The interpolant passes through its samples. *)
Lemma call_linear_at_sample (f : interp1d) (k : nat) (v u : R) :
  StronglySorted Rlt (ip_x f) → length (ip_y f) = length (ip_x f) →
  (2 ≤ length (ip_x f))%nat →
  ip_x f !! k = Some v → ip_y f !! k = Some u →
  call_linear f v = Some u.
Proof.
  intros Hs Hlen Hn Hv Hu.
  pose proof (lookup_lt_Some _ _ _ Hv) as Hk.
  destruct (clip_segment (np.searchsorted (ip_x f) v) _ Hn)
    as (j & Hclip & Hj & Hcase).
  destruct (call_linear_segment f v j Hlen Hclip Hj)
    as (x_lo & x_hi & y_lo & y_hi & Hxl & Hxh & Hyl & Hyh & ->).
  assert (x_lo < x_hi) as Hlt.
  { eapply (sorted_lookup_lt _ j (S j)); [done.. | lia]. }
  rewrite (searchsorted_at_sample _ k v Hs Hv) in Hcase.
  unfold np.divide. destruct (Req_dec_T (x_hi - x_lo) 0); [lra |]. simpl.
  f_equal.
  destruct Hcase as [<- | [[-> ->] | Hge]]; [| | lia].
  - simplify_eq. field. lra.
  - simplify_eq. ring.
Qed.

(** ** The heading function of a table *)

Section Component.
Variable g : R → R.
Implicit Types (table : calibration).

Lemma zip_component table :
  zip table.*1 (g <$> table.*2) = (λ p, (p.1, g p.2)) <$> table.
Proof.
  induction table as [|[a b] t IH]; [done |].
  simpl. f_equal. exact IH.
Qed.

Lemma zip_component_fst table : (zip table.*1 (g <$> table.*2)).*1 = table.*1.
Proof.
  rewrite zip_component, <- list_fmap_compose. by apply list_fmap_ext.
Qed.

(** The interpolant built for one Cartesian component of the table. *)
Lemma component_samples table :
  let s := np.argsort_take (zip table.*1 (g <$> table.*2)) in
  length s.*1 = length table ∧ length s.*2 = length s.*1 ∧
  (NoDup table.*1 → StronglySorted Rlt s.*1) ∧
  (∀ sv h, (sv, h) ∈ table →
     ∃ k, s.*1 !! k = Some sv ∧ s.*2 !! k = Some (g h)).
Proof.
  intros s. split; [| split; [| split]].
  - unfold s. rewrite length_fmap, argsort_take_perm, zip_component.
    by rewrite length_fmap.
  - by rewrite !length_fmap.
  - intros Hnd. apply argsort_take_sorted. by rewrite zip_component_fst.
  - intros sv h Hin.
    assert ((sv, g h) ∈ s) as Hs.
    { unfold s. rewrite argsort_take_perm, zip_component.
      apply (list_elem_of_fmap_2 (λ p, (p.1, g p.2)) _ _ Hin). }
    apply list_elem_of_lookup in Hs as [k Hk]. exists k.
    rewrite !list_lookup_fmap, Hk. done.
Qed.

End Component.

Lemma create_interpolation_function_inr minval src :
  let table := default SCREEN2HEADING_DATA src in
  (minval ≤ length table)%nat →
  create_interpolation_function minval src =
    inr (get_heading
           (Build_interp1d
              (np.argsort_take (zip table.*1 (cos <$> table.*2))).*1
              (np.argsort_take (zip table.*1 (cos <$> table.*2))).*2)
           (Build_interp1d
              (np.argsort_take (zip table.*1 (sin <$> table.*2))).*1
              (np.argsort_take (zip table.*1 (sin <$> table.*2))).*2)).
Proof.
  intros table Hlen. unfold create_interpolation_function, init.
  fold table. rewrite length_fmap.
  destruct (decide (length table < minval)%nat); [lia | done].
Qed.

Lemma create_interpolation_function_inl minval src :
  let table := default SCREEN2HEADING_DATA src in
  (length table < minval)%nat →
  create_interpolation_function minval src =
    inl (ValueError "x and y arrays must have at least minval entries").
Proof.
  intros table Hlen. unfold create_interpolation_function, init.
  fold table. rewrite length_fmap.
  destruct (decide (length table < minval)%nat); [done | lia].
Qed.

(** The value of the heading function at a calibrated screen position,
    before the range of the heading is taken into account. *)
Lemma get_heading_at_sample table sv h :
  let fx := Build_interp1d
              (np.argsort_take (zip table.*1 (cos <$> table.*2))).*1
              (np.argsort_take (zip table.*1 (cos <$> table.*2))).*2 in
  let fy := Build_interp1d
              (np.argsort_take (zip table.*1 (sin <$> table.*2))).*1
              (np.argsort_take (zip table.*1 (sin <$> table.*2))).*2 in
  (2 ≤ length table)%nat → NoDup table.*1 → (sv, h) ∈ table →
  get_heading fx fy (Some sv) = Some (np.arctan2 (sin h) (cos h)).
Proof.
  intros fx fy Hlen Hnd Hin.
  destruct (component_samples cos table) as (Hl1 & Hl2 & Hs & Hk).
  destruct (component_samples sin table) as (Hl1' & Hl2' & Hs' & Hk').
  destruct (Hk sv h Hin) as (k & Hkx & Hky).
  destruct (Hk' sv h Hin) as (k' & Hkx' & Hky').
  unfold get_heading. simpl.
  rewrite (call_linear_at_sample fx k sv (cos h)); simpl; auto; [| lia].
  rewrite (call_linear_at_sample fy k' sv (sin h)); simpl; auto; lia.
Qed.


(** ** Interpolation inside a segment *)

Lemma searchsorted_in_segment (xs : list R) (j : nat) (x_lo x_hi v : R) :
  StronglySorted Rlt xs → xs !! j = Some x_lo → xs !! S j = Some x_hi →
  x_lo < v <= x_hi → np.searchsorted xs v = S j.
Proof.
  intros Hs. revert j.
  induction Hs as [|a xs Hs IH Ha]; intros j Hlo Hhi Hv; [done |].
  simpl in Hhi. destruct j as [|j]; simpl in Hlo |- *.
  - simplify_eq. destruct (Rlt_dec x_lo v); [| lra]. f_equal.
    destruct xs as [|b xs]; simplify_eq/=.
    destruct (Rlt_dec x_hi v); [lra | done].
  - assert (a < x_lo) as Hlt.
    { rewrite Forall_forall in Ha. apply Ha. by eapply list_elem_of_lookup_2. }
    destruct (Rlt_dec a v); [| lra]. f_equal. by eapply IH.
Qed.

Lemma call_linear_between (f : interp1d) (j : nat) (x_lo x_hi y_lo y_hi v : R) :
  StronglySorted Rlt (ip_x f) → length (ip_y f) = length (ip_x f) →
  ip_x f !! j = Some x_lo → ip_x f !! S j = Some x_hi →
  ip_y f !! j = Some y_lo → ip_y f !! S j = Some y_hi →
  x_lo < v <= x_hi →
  call_linear f v = Some ((y_hi - y_lo) / (x_hi - x_lo) * (v - x_lo) + y_lo).
Proof.
  intros Hs Hlen Hxl Hxh Hyl Hyh Hv.
  pose proof (lookup_lt_Some _ _ _ Hxh) as Hj.
  destruct (call_linear_segment f v j Hlen) as (? & ? & ? & ? & ? & ? & ? & ? & ->);
    [| done |].
  { rewrite (searchsorted_in_segment _ j x_lo x_hi v); [| done..].
    unfold np.clip. lia. }
  simplify_eq. unfold np.divide.
  destruct (Req_dec_T (x_hi - x_lo) 0); [lra | done].
Qed.

(** ** The built-in table *)

Lemma insert_by_x_head (p : R * R) (l : list (R * R)) :
  Forall (λ q, p.1 <= q.1) l → np.insert_by_x p l = p :: l.
Proof.
  destruct l as [|q l]; [done |]. intros Hq%Forall_cons_1. simpl.
  destruct (Rle_dec p.1 q.1); [done | tauto].
Qed.

Lemma argsort_take_ascending (l : list (R * R)) :
  StronglySorted (λ p q, p.1 <= q.1) l → np.argsort_take l = l.
Proof.
  induction 1 as [|p l Hs IH Hp]; simpl; [done |].
  rewrite IH. by apply insert_by_x_head.
Qed.

Ltac ascending :=
  repeat (apply SSorted_cons;
          [| repeat (apply Forall_cons; split; [simpl; lra |]);
             apply Forall_nil; exact I]);
  apply SSorted_nil.

Lemma default_samples (g : R → R) :
  np.argsort_take (zip SCREEN2HEADING_DATA.*1 (g <$> SCREEN2HEADING_DATA.*2))
  = (λ p, (p.1, g p.2)) <$> SCREEN2HEADING_DATA.
Proof.
  rewrite zip_component. apply argsort_take_ascending. simpl. ascending.
Qed.

Ltac distinct_reals :=
  repeat (apply NoDup_cons_2;
          [rewrite ?not_elem_of_cons; repeat split;
           try lra; apply not_elem_of_nil |]);
  apply NoDup_nil_2.

Lemma default_screens_NoDup : NoDup SCREEN2HEADING_DATA.*1.
Proof. simpl. distinct_reals. Qed.

Lemma sin_lb_7_20 : 1 / 3 < sin (7 / 20).
Proof.
  pose proof PI2_3_2 as Hpi.
  destruct (SIN (7 / 20)) as [Hlb _]; [lra | lra |].
  eapply Rlt_le_trans; [| exact Hlb].
  unfold sin_lb, sin_approx, sum_f_R0, sin_term.
  rewrite !INR_IZR_INZ. simpl.
  cbv [Z.of_nat Pos.of_succ_nat Pos.succ]. lra.
Qed.

Lemma cos_first_heading : cos 2.3513283485530456 < - (1 / 3).
Proof.
  pose proof PI2_3_2 as Hlo. pose proof PI_4 as Hhi.
  set (h := 2.3513283485530456).
  replace h with (PI / 2 + (h - PI / 2)) by ring.
  rewrite <- (Ropp_involutive (cos _)), <- sin_cos.
  apply Ropp_lt_contravar.
  eapply Rlt_trans; [exact sin_lb_7_20 |].
  apply sin_increasing_1; unfold h; lra.
Qed.

(** An angle of the left half-plane is not [1]. *)
Lemma arctan2_left_ne_1 (y x : R) : x < 0 → np.arctan2 y x ≠ 1.
Proof.
  intros Hx. pose proof PI2_1 as H1. pose proof (atan_bound (y / x)) as Hb.
  unfold np.arctan2.
  destruct (Rlt_dec 0 x); [lra |]. destruct (Rlt_dec x 0); [| lra].
  destruct (div_neg_sign y x Hx) as [Hle Hlt].
  destruct (Rle_dec 0 y) as [Hy | Hy].
  - pose proof (atan_nonpos _ (Hle Hy)). 
    assert (- (PI / 2) < atan (y / x)) by lra. lra.
  - lra.
Qed.

(** ** The heading function: range, calibration points, wraparound *)

Lemma PI_gt_3 : 3 < PI.
Proof. pose proof PI2_3_2. lra. Qed.

(** The heading function of the built-in table on its first segment. *)
Lemma default_first_segment (minval : nat) (v : R) :
  (minval ≤ 2)%nat → 0 < v <= 80 →
  ∃ f, create_interpolation_function minval None = inr f ∧
       f (Some v) =
         Some (np.arctan2
                 ((sin 1.2179812647799937 - sin 2.3513283485530456)
                    / (80 - 0) * (v - 0) + sin 2.3513283485530456)
                 ((cos 1.2179812647799937 - cos 2.3513283485530456)
                    / (80 - 0) * (v - 0) + cos 2.3513283485530456)).
Proof.
  intros Hm Hv. eexists. split.
  { apply create_interpolation_function_inr. simpl. lia. }
  cbn [default]. rewrite !default_samples. unfold get_heading.
  cbn [mbind option_bind].
  assert (∀ g : R → R, StronglySorted Rlt
                 ((λ p : R * R, (p.1, g p.2)) <$> SCREEN2HEADING_DATA).*1)
    as Hsorted.
  { intros g. rewrite <- (default_samples g).
    destruct (component_samples g SCREEN2HEADING_DATA) as (_ & _ & Hs & _).
    apply Hs, default_screens_NoDup. }
  match goal with
  | |- context [call_linear ?fx v ≫= λ _, call_linear ?fy v ≫= _] =>
      rewrite (call_linear_between fx 0 0 80 (cos 2.3513283485530456)
                 (cos 1.2179812647799937) v);
      [rewrite (call_linear_between fy 0 0 80 (sin 2.3513283485530456)
                  (sin 1.2179812647799937) v) |..];
      try done; apply Hsorted
  end.
Qed.




Lemma heading_function_at_sample (minval : nat) (src : option calibration)
    (sv h : R) :
  let table := default SCREEN2HEADING_DATA src in
  (minval ≤ 2)%nat → (2 ≤ length table)%nat → NoDup table.*1 →
  (sv, h) ∈ table →
  ∃ f, create_interpolation_function minval src = inr f ∧
       f (Some sv) = Some (np.arctan2 (sin h) (cos h)).
Proof.
  intros table Hm Hlen Hnd Hin. eexists. split.
  { apply create_interpolation_function_inr. fold table. lia. }
  by apply (get_heading_at_sample table sv h).
Qed.

(** C2, in the form that holds of the script: at the screen position of a
    calibration entry whose heading lies in (-PI, PI], the heading function
    returns that heading. *)
Theorem heading_at_calibration_point (minval : nat) (src : option calibration)
    (sv h : R) :
  let table := default SCREEN2HEADING_DATA src in
  (minval ≤ 2)%nat → (2 ≤ length table)%nat → NoDup table.*1 →
  (sv, h) ∈ table → - PI < h <= PI →
  ∃ f, create_interpolation_function minval src = inr f ∧
       f (Some sv) = Some h.
Proof.
  intros table Hm Hlen Hnd Hin Hh.
  destruct (heading_function_at_sample minval src sv h) as (f & Hf & Hv);
    [done.. |].
  exists f. split; [done |]. by rewrite Hv, arctan2_sin_cos.
Qed.

(** C2 at the built-in table: screen positions [0] and [320]. *)
Lemma heading_at_calibration_point_default :
  (∃ f, create_interpolation_function 2 None = inr f ∧
        f (Some 0) = Some 2.3513283485530456) ∧
  (∃ f, create_interpolation_function 2 None = inr f ∧
        f (Some 320) = Some (-0.8746949393526915)).
Proof.
  pose proof PI_gt_3 as Hpi.
  split.
  - apply (heading_at_calibration_point 2 None 0 2.3513283485530456).
    + simpl. lia.
    + simpl. lia.
    + simpl. distinct_reals.
    + simpl. apply list_elem_of_here.
    + lra.
  - apply (heading_at_calibration_point 2 None 320 (-0.8746949393526915)).
    + simpl. lia.
    + simpl. lia.
    + simpl. distinct_reals.
    + simpl. do 4 apply list_elem_of_further. apply list_elem_of_here.
    + lra.
Defined.

(** C2 fails for a heading outside (-PI, PI]: with the table
    [(0, 5), (1, 6)] the value at screen position [0] is not [5]. *)
Lemma heading_5_not_returned :
  ∃ f, create_interpolation_function 2 (Some [(0, 5); (1, 6)]) = inr f ∧
       f (Some 0) ≠ Some 5.
Proof.
  destruct (heading_function_at_sample 2 (Some [(0, 5); (1, 6)]) 0 5)
    as (f & Hf & Hv).
  - lia.
  - simpl. lia.
  - simpl. distinct_reals.
  - apply list_elem_of_here.
  - exists f. split; [done |]. rewrite Hv. intros [= Heq].
    pose proof (arctan2_range (sin 5) (cos 5)) as Hr.
    pose proof PI_4. lra.
Qed.

(** C7: with the built-in table the heading function takes the same value
    at screen positions [0] and [640], the heading the table gives both. *)
Theorem default_wraparound (minval : nat) :
  (minval ≤ 2)%nat →
  ∃ f, create_interpolation_function minval None = inr f ∧
       f (Some 0) = f (Some 640) ∧
       f (Some 0) = Some 2.3513283485530456.
Proof.
  intros Hm. pose proof PI_gt_3 as Hpi.
  destruct (heading_function_at_sample minval None 0 2.3513283485530456)
    as (f & Hf & H0);
    [done | simpl; lia | apply default_screens_NoDup
     | apply list_elem_of_here |].
  destruct (heading_function_at_sample minval None 640 2.3513283485530456)
    as (f' & Hf' & H640);
    [done | simpl; lia | apply default_screens_NoDup
     | simpl; do 8 apply list_elem_of_further; apply list_elem_of_here |].
  assert (f' = f) as -> by congruence.
  exists f. split; [done |]. rewrite H0, H640. split; [done |].
  rewrite arctan2_sin_cos; [done | lra].
Qed.

(** C7 for a library that accepts a single sample. *)
Lemma default_wraparound_minval_1 :
  ∃ f, create_interpolation_function 1 None = inr f ∧
       f (Some 0) = f (Some 640) ∧
       f (Some 0) = Some 2.3513283485530456.
Proof. apply (default_wraparound 1). lia. Defined.

(** With the built-in table the heading function does not send [1] to
    [1]. *)
Lemma default_heading_at_1 :
  ∃ f, create_interpolation_function 2 None = inr f ∧ f (Some 1) ≠ Some 1.
Proof.
  destruct (default_first_segment 2 1) as (f & Hf & Hv); [lia | lra |].
  exists f. split; [done |]. rewrite Hv. intros [= Heq]. revert Heq.
  apply arctan2_left_ne_1.
  pose proof cos_first_heading.
  pose proof (COS_bound 1.2179812647799937) as [_ ?]. lra.
Qed.

(** ** The batch processor *)

Section BatchFacts.
Context {V : Type} (str : V → string) (open_zip : string → exn + ZipFile V).
Implicit Types (w : world) (z : ZipFile V) (stim : DataFrame V)
  (row : Series V) (get_heading_func : V → V).

(** *** The [try] block *)

Lemma read_stim_open_error p e w :
  open_zip p = inl e → read_stim V open_zip p w = (inl e, w).
Proof. intros H. unfold read_stim, mbind, M_bind, lift. by rewrite H. Qed.

Lemma in_namelist z (name : string) r : z !! name = Some r → name ∈ dom z.
Proof. intros H. apply elem_of_dom. eauto. Qed.

Lemma not_in_namelist z (name : string) : z !! name = None → name ∉ dom z.
Proof. apply not_elem_of_dom. Qed.

Lemma read_stim_stim p z r w :
  open_zip p = inr z → z !! "stim.csv" = Some r →
  read_stim V open_zip p w =
    (match r with inl e => inl e | inr stim => inr (Some stim) end, w).
Proof.
  intros Ho Hs. unfold read_stim, mbind, M_bind, lift. rewrite Ho.
  destruct (decide ("stim.csv" ∈ dom z)) as [_ | Hn];
    [| by destruct Hn; eapply in_namelist].
  unfold read_csv, lift. rewrite Hs. by destruct r.
Qed.

Lemma read_stim_opto p z r w :
  open_zip p = inr z → z !! "stim.csv" = None → z !! "opto.csv" = Some r →
  read_stim V open_zip p w =
    (match r with inl e => inl e | inr stim => inr (Some stim) end, w).
Proof.
  intros Ho Hs Hp. unfold read_stim, mbind, M_bind, lift. rewrite Ho.
  destruct (decide ("stim.csv" ∈ dom z)) as [Hin | _];
    [by apply not_in_namelist in Hs |].
  destruct (decide ("opto.csv" ∈ dom z)) as [_ | Hn];
    [| by destruct Hn; eapply in_namelist].
  unfold read_csv, lift. rewrite Hp. by destruct r.
Qed.

Lemma read_stim_neither p z w :
  open_zip p = inr z → z !! "stim.csv" = None → z !! "opto.csv" = None →
  read_stim V open_zip p w =
    (inr None,
     World (files w)
       (stdout w ++ ["No stim or opto data found in " +:+ p])).
Proof.
  intros Ho Hs Hp. unfold read_stim, mbind, M_bind, lift. rewrite Ho.
  destruct (decide ("stim.csv" ∈ dom z)) as [Hin | _];
    [by apply not_in_namelist in Hs |].
  destruct (decide ("opto.csv" ∈ dom z)) as [Hin | _];
    [by apply not_in_namelist in Hp | done].
Qed.

(** *** The three ways out of [process_braidz_file] *)

Lemma process_braidz_file_raised p out get_heading_func e w :
  read_stim V open_zip p w = (inl e, w) →
  process_braidz_file V str open_zip p out get_heading_func w =
    (inr false,
     World (files w)
       (stdout w ++ ["Error reading " +:+ p +:+ ": " +:+ str_of_exn e])).
Proof.
  intros H. unfold process_braidz_file, mbind, M_bind, try_except.
  by rewrite H.
Qed.

Lemma process_braidz_file_no_data p out get_heading_func w w' :
  read_stim V open_zip p w = (inr None, w') →
  process_braidz_file V str open_zip p out get_heading_func w =
    (inr false, w').
Proof.
  intros H. unfold process_braidz_file, mbind, M_bind, try_except.
  by rewrite H.
Qed.

Lemma process_braidz_file_table p out get_heading_func stim w :
  read_stim V open_zip p w = (inr (Some stim), w) →
  process_braidz_file V str open_zip p out get_heading_func w =
    (let output_file := output_file_of p out in
     for_each stim (process_row V str output_file get_heading_func);;
     print ("Interpolated " +:+ p +:+ " to " +:+ output_file);;
     mret true)
      (World (<[output_file_of p out := csv_header]> (files w)) (stdout w)).
Proof.
  intros H. unfold process_braidz_file, mbind, M_bind, try_except.
  by rewrite H.
Qed.

(** *** One row *)

Lemma process_row_heading csv get_heading_func row obj_id frame h w :
  row !! "obj_id" = Some obj_id → row !! "frame" = Some frame →
  row !! "stim_position_screen" = None → row !! "heading" = Some h →
  process_row V str csv get_heading_func row w =
    write_to_csv V str csv obj_id frame (get_heading_func h) w.
Proof.
  intros Ho Hf Hs Hh. unfold process_row, getcol, mbind, M_bind, mret, M_ret.
  rewrite Ho, Hf.
  destruct (decide ("stim_position_screen" ∉ dom row)) as [_ | Hn];
    [| by destruct Hn; apply not_elem_of_dom].
  by rewrite Hh.
Qed.

Lemma process_row_screen csv get_heading_func row obj_id frame s w :
  row !! "obj_id" = Some obj_id → row !! "frame" = Some frame →
  row !! "stim_position_screen" = Some s →
  process_row V str csv get_heading_func row w =
    write_to_csv V str csv obj_id frame (get_heading_func s) w.
Proof.
  intros Ho Hf Hs. unfold process_row, getcol, mbind, M_bind, mret, M_ret.
  rewrite Ho, Hf.
  destruct (decide ("stim_position_screen" ∉ dom row)) as [Hn | _];
    [by destruct Hn; apply elem_of_dom; eauto |].
  by rewrite Hs.
Qed.

Lemma process_row_neither csv get_heading_func row obj_id frame w :
  row !! "obj_id" = Some obj_id → row !! "frame" = Some frame →
  row !! "stim_position_screen" = None → row !! "heading" = None →
  process_row V str csv get_heading_func row w = (inl (KeyError "heading"), w).
Proof.
  intros Ho Hf Hs Hh. unfold process_row, getcol, mbind, M_bind, mret, M_ret.
  rewrite Ho, Hf.
  destruct (decide ("stim_position_screen" ∉ dom row)) as [_ | Hn];
    [| by destruct Hn; apply not_elem_of_dom].
  by rewrite Hh.
Qed.

End BatchFacts.

Section BatchLoops.
Context {V : Type} (str : V → string) (open_zip : string → exn + ZipFile V).
Implicit Types (w : world) (z : ZipFile V) (stim : DataFrame V)
  (row : Series V) (get_heading_func : V → V).

Lemma string_app_assoc (a b c : string) : (a +:+ b) +:+ c = a +:+ b +:+ c.
Proof.
  induction a as [|x a IH]; [done |].
  change (String x ((a +:+ b) +:+ c) = String x (a +:+ b +:+ c)).
  by rewrite IH.
Qed.

Lemma string_app_nil_r (a : string) : a +:+ EmptyString = a.
Proof.
  induction a as [|x a IH]; [done |].
  change (String x (a +:+ EmptyString) = String x a). by rewrite IH.
Qed.

Lemma process_row_cells csv get_heading_func row obj_id frame h w :
  row_cells V get_heading_func row = Some (obj_id, frame, h) →
  process_row V str csv get_heading_func row w =
    write_to_csv V str csv obj_id frame h w.
Proof.
  unfold row_cells, process_row, getcol, mbind, M_bind, mret, M_ret.
  destruct (row !! "obj_id") as [o|]; [| done]. simpl.
  destruct (row !! "frame") as [f|]; [| done]. simpl.
  destruct (decide ("stim_position_screen" ∉ dom row)).
  - destruct (row !! "heading"); [| done]. simpl. by intros [= -> -> <-].
  - destruct (row !! "stim_position_screen"); [| done]. simpl.
    by intros [= -> -> <-].
Qed.

(** The loop over the rows appends their lines, in order, to the text the
    file already holds. *)
Lemma for_each_rows csv get_heading_func stim cells text fs out :
  mapM (row_cells V get_heading_func) stim = Some cells →
  fs !! csv = Some text →
  for_each stim (process_row V str csv get_heading_func) (World fs out) =
    (inr (), World (<[csv := text +:+ csv_rows V str cells]> fs) out).
Proof.
  revert cells text fs.
  induction stim as [|row stim IH]; intros cells text fs Hc Hfs.
  - injection Hc as <-. cbn [for_each csv_rows foldr].
    rewrite string_app_nil_r. by rewrite insert_id.
  - apply mapM_Some_1 in Hc. apply Forall2_cons_inv_l in Hc
      as ([[obj_id frame] h] & cells' & Hrow & Hrest & ->).
    apply mapM_Some_2 in Hrest.
    cbn [for_each]. unfold mbind at 1, M_bind at 1.
    rewrite (process_row_cells _ _ _ _ _ _ _ Hrow).
    unfold write_to_csv, open_a_write. cbn [files stdout].
    rewrite Hfs. cbn [default].
    rewrite (IH cells' _ _ Hrest (lookup_insert_eq _ _ _)).
    rewrite insert_insert_eq. cbn [csv_rows foldr].
    by rewrite string_app_assoc.
Qed.

Lemma process_braidz_file_rows p out get_heading_func stim cells w :
  read_stim V open_zip p w = (inr (Some stim), w) →
  mapM (row_cells V get_heading_func) stim = Some cells →
  process_braidz_file V str open_zip p out get_heading_func w =
    (inr true,
     World (<[output_file_of p out := csv_header +:+ csv_rows V str cells]>
              (files w))
       (stdout w ++ ["Interpolated " +:+ p +:+ " to " +:+ output_file_of p out])).
Proof.
  intros Hr Hc. rewrite (process_braidz_file_table _ _ _ _ _ _ _ Hr).
  cbv zeta. unfold mbind at 1, M_bind at 1.
  rewrite (for_each_rows _ _ _ cells csv_header);
    [| done | apply lookup_insert_eq].
  by rewrite insert_insert_eq.
Qed.

(** *** The loop over the archives *)

Lemma process_all_cons p rest out get_heading_func w :
  process_all V str open_zip (p :: rest) out get_heading_func w =
    match process_braidz_file V str open_zip p out get_heading_func w with
    | (inl e, w') => (inl e, w')
    | (inr _, w') => process_all V str open_zip rest out get_heading_func w'
    end.
Proof.
  unfold process_all. cbn [for_each]. unfold mbind, M_bind, mret, M_ret.
  by destruct (process_braidz_file _ _ _ _ _ _ _) as [[e | b] w'].
Qed.

End BatchLoops.

(** ** The batch processor: claims *)

Section BatchClaims.
Context {V : Type} (str : V → string) (open_zip : string → exn + ZipFile V).
Implicit Types (w : world) (z : ZipFile V) (stim : DataFrame V)
  (row : Series V) (get_heading_func : V → V).

Lemma read_fails_outcome p w :
  read_fails V open_zip p →
  ∃ line, ∀ out get_heading_func,
    process_braidz_file V str open_zip p out get_heading_func w =
      (inr false, World (files w) (stdout w ++ [line])).
Proof.
  unfold read_fails. intros Hf.
  destruct (open_zip p) as [e | z] eqn:Ho.
  { eexists. intros. eapply process_braidz_file_raised.
    by apply read_stim_open_error. }
  destruct (z !! "stim.csv") as [[e | stim] |] eqn:Hs; [| done |].
  { eexists. intros. eapply process_braidz_file_raised.
    by rewrite (read_stim_stim _ _ _ _ _ Ho Hs). }
  destruct (z !! "opto.csv") as [[e | stim] |] eqn:Hp; [| done |].
  { eexists. intros. eapply process_braidz_file_raised.
    by rewrite (read_stim_opto _ _ _ _ _ Ho Hs Hp). }
  eexists. intros. eapply process_braidz_file_no_data.
  by apply (read_stim_neither _ _ _ _ Ho Hs Hp).
Qed.

(** X23, the part of C5 the script keeps: an archive that gives no table
    (it cannot be opened, the member read cannot be parsed, or it has
    neither member) is reported and skipped, no file is written for it,
    and the loop goes on with the archives that follow. *)
Theorem unreadable_archive_is_skipped p rest out get_heading_func w :
  read_fails V open_zip p →
  ∃ line,
    process_braidz_file V str open_zip p out get_heading_func w =
      (inr false, World (files w) (stdout w ++ [line])) ∧
    process_all V str open_zip (p :: rest) out get_heading_func w =
      process_all V str open_zip rest out get_heading_func
        (World (files w) (stdout w ++ [line])).
Proof.
  intros Hf. destruct (read_fails_outcome p w Hf) as [line Hl].
  exists line. split; [apply Hl |].
  by rewrite process_all_cons, Hl.
Qed.

(** C6: an archive with neither member leaves no output file: the files
    are those there were, the skip is printed, and the call returns
    [False] without raising. *)
Theorem neither_member_no_output p z out get_heading_func w :
  open_zip p = inr z → z !! "stim.csv" = None → z !! "opto.csv" = None →
  process_braidz_file V str open_zip p out get_heading_func w =
    (inr false,
     World (files w)
       (stdout w ++ ["No stim or opto data found in " +:+ p])).
Proof.
  intros Ho Hs Hp. eapply process_braidz_file_no_data.
  by apply (read_stim_neither _ _ _ _ Ho Hs Hp).
Qed.

(** C10: a table without rows gives an output file that holds the header
    line and nothing else. *)
Theorem empty_table_header_only p z out get_heading_func w :
  open_zip p = inr z →
  z !! "stim.csv" = Some (inr []) ∨
    (z !! "stim.csv" = None ∧ z !! "opto.csv" = Some (inr [])) →
  process_braidz_file V str open_zip p out get_heading_func w =
    (inr true,
     World (<[output_file_of p out := "obj_id,frame,stim_heading" +:+ NL]>
              (files w))
       (stdout w
          ++ ["Interpolated " +:+ p +:+ " to " +:+ output_file_of p out])).
Proof.
  intros Ho Hz.
  assert (read_stim V open_zip p w = (inr (Some []), w)) as Hr.
  { destruct Hz as [Hs | [Hs Hp]].
    - by rewrite (read_stim_stim _ _ _ _ _ Ho Hs).
    - by rewrite (read_stim_opto _ _ _ _ _ Ho Hs Hp). }
  rewrite (process_braidz_file_rows str open_zip p out get_heading_func
             [] [] w Hr eq_refl).
  cbn [csv_rows foldr]. by rewrite string_app_nil_r.
Qed.

End BatchClaims.

(** C9: when both members are present the table is that of [stim.csv],
    and the outcome is the one of the archive without [opto.csv];
    [opto.csv] is read when [stim.csv] is absent. *)
Theorem stim_csv_takes_precedence {V : Type} (str : V → string)
    (open_zip open_zip' : string → exn + ZipFile V) (p : string)
    (z : ZipFile V) (r : exn + DataFrame V) (out : string)
    (get_heading_func : V → V) (w : world) :
  open_zip p = inr z → z !! "stim.csv" = Some r →
  open_zip' p = inr (delete "opto.csv" z) →
  read_stim V open_zip p w =
    (match r with inl e => inl e | inr stim => inr (Some stim) end, w) ∧
  process_braidz_file V str open_zip p out get_heading_func w =
    process_braidz_file V str open_zip' p out get_heading_func w.
Proof.
  intros Ho Hs Ho'.
  assert (delete "opto.csv" z !! "stim.csv" = Some r) as Hs'.
  { by rewrite lookup_delete_ne. }
  pose proof (read_stim_stim open_zip p z r w Ho Hs) as Hr.
  pose proof (read_stim_stim open_zip' p _ r w Ho' Hs') as Hr'.
  split; [done |].
  unfold process_braidz_file, mbind, M_bind, try_except.
  by rewrite Hr, Hr'.
Qed.

(** X23 at an archive that cannot be opened. *)
Lemma unreadable_archive_is_skipped_missing :
  read_fails np.float64 sample_open_zip "data/missing.braidz" ∧
  ∃ line,
    process_braidz_file np.float64 sample_str sample_open_zip
      "data/missing.braidz" "out" (λ v, v) (World ∅ []) =
      (inr false, World ∅ ([] ++ [line])) ∧
    process_all np.float64 sample_str sample_open_zip
      ["data/missing.braidz"; "data/empty.braidz"] "out" (λ v, v)
      (World ∅ []) =
      process_all np.float64 sample_str sample_open_zip
        ["data/empty.braidz"] "out" (λ v, v) (World ∅ ([] ++ [line])).
Proof.
  split; [exact I |].
  apply (unreadable_archive_is_skipped sample_str sample_open_zip
           "data/missing.braidz" ["data/empty.braidz"] "out" (λ v, v)
           (World ∅ [])).
  exact I.
Defined.

(** C6 at an archive that holds another member only. *)
Lemma neither_member_no_output_sample :
  process_braidz_file np.float64 sample_str sample_open_zip
    "data/none.braidz" "out" (λ v, v) (World ∅ []) =
    (inr false,
     World ∅ ([] ++ ["No stim or opto data found in " +:+ "data/none.braidz"])).
Proof.
  apply (neither_member_no_output sample_str sample_open_zip
           "data/none.braidz" {[ "kalman_estimates.csv" := inr [] ]}).
  - reflexivity.
  - reflexivity.
  - reflexivity.
Defined.

(** C10 at an archive whose [stim.csv] has no rows. *)
Lemma empty_table_header_only_sample :
  process_braidz_file np.float64 sample_str sample_open_zip
    "data/empty.braidz" "out" (λ v, v) (World ∅ []) =
    (inr true,
     World (<[output_file_of "data/empty.braidz" "out" :=
                "obj_id,frame,stim_heading" +:+ NL]> ∅)
       ([] ++ ["Interpolated " +:+ "data/empty.braidz" +:+ " to "
               +:+ output_file_of "data/empty.braidz" "out"])).
Proof.
  apply (empty_table_header_only sample_str sample_open_zip
           "data/empty.braidz" {[ "stim.csv" := inr [] ]}).
  - reflexivity.
  - left. reflexivity.
Defined.

(** C9 at an archive that holds both members. *)
Lemma stim_csv_takes_precedence_sample :
  read_stim np.float64 sample_open_zip "data/both.braidz" (World ∅ []) =
    (inr (Some stim_rows), World ∅ []) ∧
  process_braidz_file np.float64 sample_str sample_open_zip
    "data/both.braidz" "out" (λ v, v) (World ∅ []) =
  process_braidz_file np.float64 sample_str
    (λ _, inr (delete "opto.csv"
                 {[ "stim.csv" := inr stim_rows;
                    "opto.csv" := inr [heading_row] ]}))
    "data/both.braidz" "out" (λ v, v) (World ∅ []).
Proof.
  apply (stim_csv_takes_precedence sample_str sample_open_zip _
           "data/both.braidz"
           {[ "stim.csv" := inr stim_rows; "opto.csv" := inr [heading_row] ]}
           (inr stim_rows)).
  - reflexivity.
  - reflexivity.
  - reflexivity.
Defined.

(** ** The command *)

Section MainFacts.
Context (minval : nat) (str : np.float64 → string)
  (open_zip : string → exn + ZipFile np.float64)
  (read_calibration : string → exn + calibration)
  (path_exists isfile isdir : string → bool)
  (glob : string → bool → list string).

Local Abbreviation main_ :=
  (main minval str open_zip read_calibration path_exists isfile isdir glob).

(** A calibration source the constructor rejects stops the command before
    any archive is opened: nothing is written. *)
Lemma main_calibration_rejected args path c e w :
  screen2heading_path args = Some path → read_calibration path = inr c →
  create_interpolation_function minval (Some c) = inl e →
  ∃ out', main_ args w = (inl e, World (files w) out').
Proof.
  intros Hp Hc He. unfold main, mbind, M_bind, lift, mret, M_ret, print.
  rewrite Hp, Hc, He.
  destruct w, (path_exists (output_path args)); by eexists.
Qed.

(** The directory branch of the command. *)
Lemma main_directory args f files w :
  path_exists (output_path args) = true →
  screen2heading_path args = None →
  create_interpolation_function minval None = inr f →
  isfile (braidz_path args) = false → isdir (braidz_path args) = true →
  glob (os_path.join (braidz_path args)
          [if recursive args then "**" else ""; "*.braidz"])
       (recursive args) = files →
  files ≠ [] →
  main_ args w =
    (process_all np.float64 str open_zip files (output_path args) f;;
     print "Processing complete!") w.
Proof.
  intros He Hp Hf Hfile Hdir Hglob Hne.
  unfold main. rewrite He, Hp, Hfile, Hdir, Hglob.
  rewrite bool_decide_false by done.
  unfold mbind, M_bind, lift, mret, M_ret. by rewrite Hf.
Qed.

End MainFacts.

(** C4: a table with a repeated screen position is accepted, whichever
    least number of samples the library asks for. *)
Lemma duplicate_screens_accepted :
  (∃ f, create_interpolation_function 1 (Some [(0, 0); (0, 1)]) = inr f) ∧
  (∃ f, create_interpolation_function 2 (Some [(0, 0); (0, 1)]) = inr f).
Proof.
  split; eexists; apply create_interpolation_function_inr; simpl; lia.
Qed.

(** C4, in the form that holds of the script: it checks nothing itself.  The construction
    fails exactly when the table has fewer rows than the library's
    constructor accepts, with the constructor's [ValueError]; in the
    command this happens before any archive is opened or any file written. *)
Theorem calibration_checked_by_constructor_only (minval : nat)
    (src : option calibration) :
  let table := default SCREEN2HEADING_DATA src in
  ((length table < minval)%nat →
   create_interpolation_function minval src =
     inl (ValueError "x and y arrays must have at least minval entries") ∧
   ∀ str open_zip read_calibration path_exists isfile isdir glob args path w,
     src = Some table →
     screen2heading_path args = Some path →
     read_calibration path = inr table →
     ∃ out',
       main minval str open_zip read_calibration path_exists isfile isdir
         glob args w =
       (inl (ValueError "x and y arrays must have at least minval entries"),
        World (files w) out')) ∧
  ((minval ≤ length table)%nat →
   ∃ f, create_interpolation_function minval src = inr f).
Proof.
  intros table. split.
  - intros Hlt.
    pose proof (create_interpolation_function_inl minval src Hlt) as He.
    split; [exact He |].
    intros ? ? ? ? ? ? ? args path w Hsrc Hp Hc.
    eapply main_calibration_rejected; [done.. |]. by rewrite <- Hsrc.
  - intros Hle. eexists. by apply create_interpolation_function_inr.
Qed.

(** C4 at a calibration file of one row and a library that asks for
    two. *)
Lemma calibration_checked_by_constructor_only_one_row :
  create_interpolation_function 2 (Some [(0, 0)]) =
    inl (ValueError "x and y arrays must have at least minval entries") ∧
  ∃ out',
    main 2 sample_str sample_open_zip sample_read_calibration (λ _, true)
      (λ _, false) sample_isdir sample_glob
      (Build_Namespace "data" "out" (Some "one_row.csv") false)
      (World ∅ []) =
    (inl (ValueError "x and y arrays must have at least minval entries"),
     World ∅ out').
Proof.
  destruct (calibration_checked_by_constructor_only 2 (Some [(0, 0)]))
    as [Hlt _].
  destruct Hlt as [He Hmain]; [simpl; lia |].
  split; [exact He |].
  apply (Hmain sample_str sample_open_zip sample_read_calibration (λ _, true)
           (λ _, false) sample_isdir sample_glob
           (Build_Namespace "data" "out" (Some "one_row.csv") false)
           "one_row.csv" (World ∅ [])); reflexivity.
Defined.

(** C5, at a directory of two archives of which the first has a table
    with neither source column: the row raises [KeyError] outside the
    [try] block, nothing catches it, the command stops there, and the
    archive that follows is never processed. *)
Lemma malformed_row_aborts_batch :
  ∃ w',
    main 2 sample_str sample_open_zip sample_read_calibration (λ _, true)
      (λ _, false) sample_isdir sample_glob
      (Build_Namespace "data" "out" None false) (World ∅ []) =
    (inl (KeyError "heading"), w') ∧
    files w' !! "out/fly.csv" = None.
Proof.
  pose proof (create_interpolation_function_inr 2 None) as Hf.
  cbv zeta in Hf. specialize (Hf ltac:(simpl; lia)).
  eexists. split.
  - erewrite (main_directory 2 _ _ _ _ _ _ _ _ _
                ["data/bad.braidz"; "data/fly.braidz"]);
      [| reflexivity | reflexivity | exact Hf
       | reflexivity | reflexivity | reflexivity | done].
    unfold mbind at 1, M_bind at 1.
    rewrite process_all_cons.
    erewrite process_braidz_file_table;
      [| by erewrite read_stim_stim by reflexivity].
    cbv zeta. cbn [for_each]. unfold mbind at 1, M_bind at 1.
    unfold mbind at 1, M_bind at 1.
    erewrite process_row_neither by reflexivity.
    reflexivity.
  - reflexivity.
Qed.

(** C1, at the row [obj_id=1, frame=10, heading=1.0] with the built-in
    table: the heading is not written as it is; it is handed to the
    interpolation function as if it were a screen position, and the value
    written, the heading function at screen position [1], is not [1]. *)
Theorem heading_row_is_interpolated :
  ∃ f, create_interpolation_function 2 None = inr f ∧
       (∀ str csv w,
          process_row np.float64 str csv f heading_row w =
            write_to_csv np.float64 str csv (Some 1) (Some 10) (f (Some 1)) w) ∧
       f (Some 1) ≠ Some 1.
Proof.
  destruct default_heading_at_1 as (f & Hf & Hne).
  exists f. split; [done |]. split; [| done].
  intros str csv w. by apply process_row_heading.
Qed.

(** The script and the specification agree on the name of the output file
    when the base name of the archive has one dot. *)
Example output_name_one_dot :
  output_file_of "data/run1/fly.braidz" "out" = "out/fly.csv" ∧
  output_file_spec "data/run1/fly.braidz" "out" = "out/fly.csv".
Proof. split; reflexivity. Qed.

(** C8, at the archive [data/fly.v2.braidz]: the script cuts the base name
    at its first dot and writes [out/fly.csv], where the base name without
    its extension gives [out/fly.v2.csv]. *)
Theorem output_name_cut_at_first_dot :
  output_file_of "data/fly.v2.braidz" "out" = "out/fly.csv" ∧
  output_file_spec "data/fly.v2.braidz" "out" = "out/fly.v2.csv" ∧
  output_file_of "data/fly.v2.braidz" "out"
    ≠ output_file_spec "data/fly.v2.braidz" "out".
Proof. split; [reflexivity |]. split; [reflexivity | discriminate]. Qed.

(** The end-to-end scenario of the specification: the two rows of
    [stim_rows] give, after the header, one line each, in their order, with
    the calibrated headings of screen positions [0] and [320]. *)
Lemma end_to_end_scenario (str : np.float64 → string) :
  ∃ f, create_interpolation_function 2 None = inr f ∧
       process_braidz_file np.float64 str sample_open_zip "data/fly.braidz"
         "out" f (World ∅ []) =
       (inr true,
        World {[ "out/fly.csv" :=
                   csv_header
                   +:+ csv_row np.float64 str (Some 1) (Some 10)
                         (Some 2.3513283485530456)
                   +:+ csv_row np.float64 str (Some 1) (Some 11)
                         (Some (-0.8746949393526915)) ]}
          ["Interpolated data/fly.braidz to out/fly.csv"]).
Proof.
  pose proof PI_gt_3 as Hpi.
  destruct (heading_function_at_sample 2 None 0 2.3513283485530456)
    as (f & Hf & H0);
    [done | simpl; lia | apply default_screens_NoDup
     | apply list_elem_of_here |].
  destruct (heading_function_at_sample 2 None 320 (-0.8746949393526915))
    as (f' & Hf' & H320);
    [done | simpl; lia | apply default_screens_NoDup
     | simpl; do 4 apply list_elem_of_further; apply list_elem_of_here |].
  assert (f' = f) as -> by congruence.
  rewrite arctan2_sin_cos in H0 by lra.
  rewrite arctan2_sin_cos in H320 by lra.
  exists f. split; [done |].
  erewrite (process_braidz_file_rows str sample_open_zip "data/fly.braidz"
              "out" f stim_rows
              [(Some 1, Some 10, Some 2.3513283485530456);
               (Some 1, Some 11, Some (-0.8746949393526915))]).
  - cbn [csv_rows foldr]. rewrite string_app_nil_r. reflexivity.
  - by erewrite read_stim_stim by reflexivity.
  - unfold stim_rows. cbn [mapM].
    assert (∀ o fr s,
              row_cells np.float64 f
                {[ "obj_id" := o; "frame" := fr;
                   "stim_position_screen" := Some s ]}
              = Some (o, fr, f (Some s))) as Hrow.
    { intros o fr s. unfold row_cells.
      replace (_ !! "obj_id") with (Some o) by reflexivity.
      replace (_ !! "frame") with (Some fr) by reflexivity.
      cbn [mbind option_bind].
      destruct (decide _) as [Hn | _].
      - destruct Hn. apply elem_of_dom. eexists. reflexivity.
      - replace (_ !! "stim_position_screen") with (Some (Some s))
          by reflexivity.
        reflexivity. }
    rewrite !Hrow, H0, H320. reflexivity.
Qed.

(** * Further properties *)

(** ** The batch processor: what a call does to the files *)

Section BatchEffect.
Context {V : Type} (str : V → string) (open_zip : string → exn + ZipFile V).
Implicit Types (w : world) (z : ZipFile V) (stim : DataFrame V)
  (row : Series V) (get_heading_func : V → V).

Lemma row_cells_None_raises get_heading_func row :
  row_cells V get_heading_func row = None →
  ∃ k, k ∈ ["obj_id"; "frame"; "heading"] ∧
       ∀ csv w,
         process_row V str csv get_heading_func row w = (inl (KeyError k), w).
Proof.
  unfold row_cells, process_row, getcol, mbind, M_bind, mret, M_ret, raise.
  destruct (row !! "obj_id") as [o|]; cbn [option_bind].
  2:{ intros _. exists "obj_id". split; [apply list_elem_of_here | done]. }
  destruct (row !! "frame") as [f|]; cbn [option_bind].
  2:{ intros _. exists "frame".
      split; [apply list_elem_of_further, list_elem_of_here | done]. }
  destruct (decide ("stim_position_screen" ∉ dom row)) as [Hn | Hin].
  - destruct (row !! "heading"); [done |].
    intros _. exists "heading".
    split; [do 2 apply list_elem_of_further; apply list_elem_of_here | done].
  - apply dec_stable in Hin. apply elem_of_dom in Hin as [s Hs].
    by rewrite Hs.
Qed.

Lemma rows_split get_heading_func stim :
  (∃ cells, mapM (row_cells V get_heading_func) stim = Some cells) ∨
  (∃ good cells bad rest,
     stim = good ++ bad :: rest ∧
     mapM (row_cells V get_heading_func) good = Some cells ∧
     row_cells V get_heading_func bad = None).
Proof.
  induction stim as [|row stim IH].
  { left. by exists []. }
  destruct (row_cells V get_heading_func row) as [c|] eqn:Hrow.
  - destruct IH as [[cells Hc] | (good & cells & bad & rest & -> & Hg & Hb)].
    + left. exists (c :: cells). cbn [mapM]. by rewrite Hrow, Hc.
    + right. exists (row :: good), (c :: cells), bad, rest.
      split; [done |]. split; [| done]. cbn [mapM]. by rewrite Hrow, Hg.
  - right. by exists [], [], row, stim.
Qed.

Lemma for_each_rows_raise csv get_heading_func good cells bad rest k text
    fs out :
  mapM (row_cells V get_heading_func) good = Some cells →
  (∀ w, process_row V str csv get_heading_func bad w = (inl (KeyError k), w)) →
  fs !! csv = Some text →
  for_each (good ++ bad :: rest) (process_row V str csv get_heading_func)
    (World fs out) =
    (inl (KeyError k), World (<[csv := text +:+ csv_rows V str cells]> fs) out).
Proof.
  intros Hc Hbad. revert cells text fs Hc.
  induction good as [|row good IH]; intros cells text fs Hc Hfs.
  - injection Hc as <-. cbn [app for_each csv_rows foldr].
    unfold mbind, M_bind. rewrite Hbad, string_app_nil_r.
    by rewrite insert_id.
  - apply mapM_Some_1 in Hc. apply Forall2_cons_inv_l in Hc
      as ([[obj_id frame] h] & cells' & Hrow & Hrest & ->).
    apply mapM_Some_2 in Hrest.
    cbn [app for_each]. unfold mbind at 1, M_bind at 1.
    rewrite (process_row_cells str _ _ _ _ _ _ _ Hrow).
    unfold write_to_csv, open_a_write. cbn [files stdout].
    rewrite Hfs. cbn [default].
    rewrite (IH cells' _ _ Hrest (lookup_insert_eq _ _ _)).
    rewrite insert_insert_eq. cbn [csv_rows foldr].
    by rewrite string_app_assoc.
Qed.

(** The table read by the [try] block, when there is one. *)
Lemma read_stim_total p w :
  (∃ line, read_fails V open_zip p ∧ ∀ out get_heading_func w0,
     process_braidz_file V str open_zip p out get_heading_func w0 =
       (inr false, World (files w0) (stdout w0 ++ [line]))) ∨
  (∃ stim, ∀ w0, read_stim V open_zip p w0 = (inr (Some stim), w0)).
Proof.
  destruct (open_zip p) as [e | z] eqn:Ho.
  { left. eexists. split; [unfold read_fails; by rewrite Ho |].
    intros. eapply process_braidz_file_raised.
    by apply read_stim_open_error. }
  destruct (z !! "stim.csv") as [[e | stim] |] eqn:Hs.
  - left. eexists. split; [unfold read_fails; by rewrite Ho, Hs |].
    intros. eapply process_braidz_file_raised.
    by rewrite (read_stim_stim _ _ _ _ _ Ho Hs).
  - right. exists stim. intros. by rewrite (read_stim_stim _ _ _ _ _ Ho Hs).
  - destruct (z !! "opto.csv") as [[e | stim] |] eqn:Hp.
    + left. eexists. split; [unfold read_fails; by rewrite Ho, Hs, Hp |].
      intros. eapply process_braidz_file_raised.
      by rewrite (read_stim_opto _ _ _ _ _ Ho Hs Hp).
    + right. exists stim. intros.
      by rewrite (read_stim_opto _ _ _ _ _ Ho Hs Hp).
    + left. eexists. split; [unfold read_fails; by rewrite Ho, Hs, Hp |].
      intros. eapply process_braidz_file_no_data.
      by apply (read_stim_neither _ _ _ _ Ho Hs Hp).
Qed.

Lemma process_braidz_file_partial p out get_heading_func good cells bad rest
    k w :
  read_stim V open_zip p w = (inr (Some (good ++ bad :: rest)), w) →
  mapM (row_cells V get_heading_func) good = Some cells →
  (∀ csv w0,
     process_row V str csv get_heading_func bad w0 = (inl (KeyError k), w0)) →
  process_braidz_file V str open_zip p out get_heading_func w =
    (inl (KeyError k),
     World (<[output_file_of p out := csv_header +:+ csv_rows V str cells]>
              (files w))
       (stdout w)).
Proof.
  intros Hr Hc Hbad. rewrite (process_braidz_file_table _ _ _ _ _ _ _ Hr).
  cbv zeta. unfold mbind at 1, M_bind at 1.
  rewrite (for_each_rows_raise _ _ good cells bad rest k csv_header);
    [| done | by intros; apply Hbad | apply lookup_insert_eq].
  by rewrite insert_insert_eq.
Qed.

(** Whatever the archive holds, a call has, where writing succeeds, one of
    three effects, the same from every world: nothing is written; the output file is written in
    full; the output file is written up to a row that lacks a column. *)
Lemma process_braidz_file_effect p out get_heading_func :
  ∃ (r : exn + bool) (text : option string) (lines : list string),
    (∀ e, r = inl e →
       ∃ k, k ∈ ["obj_id"; "frame"; "heading"] ∧ e = KeyError k) ∧
    ∀ w, process_braidz_file V str open_zip p out get_heading_func w =
           (r, World (match text with
                      | Some t => <[output_file_of p out := t]> (files w)
                      | None => files w
                      end)
                 (stdout w ++ lines)).
Proof.
  destruct (read_stim_total p (World ∅ [])) as [(line & _ & Hl) | [stim Hr]].
  { exists (inr false), None, [line]. split; [done |]. intros w. apply Hl. }
  destruct (rows_split get_heading_func stim)
    as [[cells Hc] | (good & cells & bad & rest & -> & Hg & Hb)].
  - exists (inr true), (Some (csv_header +:+ csv_rows V str cells)),
      ["Interpolated " +:+ p +:+ " to " +:+ output_file_of p out].
    split; [done |]. intros w.
    by apply (process_braidz_file_rows _ _ _ _ _ stim).
  - destruct (row_cells_None_raises get_heading_func bad Hb) as (k & Hk & Hraise).
    exists (inl (KeyError k)),
      (Some (csv_header +:+ csv_rows V str cells)), [].
    split.
    { intros e [= <-]. eauto. }
    intros w. rewrite app_nil_r.
    by eapply process_braidz_file_partial.
Qed.

End BatchEffect.

Section BatchExtras.
Context {V : Type} (str : V → string) (open_zip : string → exn + ZipFile V).
Implicit Types (w : world) (z : ZipFile V) (stim : DataFrame V)
  (row : Series V) (get_heading_func : V → V).

Lemma read_stim_table p z stim w :
  open_zip p = inr z →
  z !! "stim.csv" = Some (inr stim) ∨
    (z !! "stim.csv" = None ∧ z !! "opto.csv" = Some (inr stim)) →
  read_stim V open_zip p w = (inr (Some stim), w).
Proof.
  intros Ho [Hs | [Hs Hp]].
  - by rewrite (read_stim_stim _ _ _ _ _ Ho Hs).
  - by rewrite (read_stim_opto _ _ _ _ _ Ho Hs Hp).
Qed.

(** X1: when every row of the table has the columns read, the call returns
    [True] and the output file is the header followed by one line for each
    row, in the order of the table. *)
Theorem table_written_in_order p z stim cells out get_heading_func w :
  open_zip p = inr z →
  z !! "stim.csv" = Some (inr stim) ∨
    (z !! "stim.csv" = None ∧ z !! "opto.csv" = Some (inr stim)) →
  mapM (row_cells V get_heading_func) stim = Some cells →
  length cells = length stim ∧
  process_braidz_file V str open_zip p out get_heading_func w =
    (inr true,
     World (<[output_file_of p out := csv_header +:+ csv_rows V str cells]>
              (files w))
       (stdout w
          ++ ["Interpolated " +:+ p +:+ " to " +:+ output_file_of p out])).
Proof.
  intros Ho Hz Hc. split.
  - apply mapM_Some_1, Forall2_length in Hc. done.
  - apply (process_braidz_file_rows _ _ _ _ _ stim); [| done].
    by eapply read_stim_table.
Qed.

(** X2: a row that has a [stim_position_screen] column is written with the
    heading function of that cell, also when it has a [heading] column. *)
Theorem screen_position_preferred_to_heading csv get_heading_func row
    obj_id frame s h w :
  row !! "obj_id" = Some obj_id → row !! "frame" = Some frame →
  row !! "stim_position_screen" = Some s → row !! "heading" = Some h →
  process_row V str csv get_heading_func row w =
    (inr (),
     World (<[csv := default EmptyString (files w !! csv)
                     +:+ csv_row V str obj_id frame (get_heading_func s)]>
              (files w))
       (stdout w)).
Proof.
  intros Ho Hf Hs _. by rewrite (process_row_screen str _ _ _ _ _ _ _ Ho Hf Hs).
Qed.

Lemma process_row_no_obj_id csv get_heading_func row w :
  row !! "obj_id" = None →
  process_row V str csv get_heading_func row w = (inl (KeyError "obj_id"), w).
Proof.
  intros Ho. unfold process_row, getcol, mbind, M_bind, raise. by rewrite Ho.
Qed.

Lemma process_row_no_frame csv get_heading_func row obj_id w :
  row !! "obj_id" = Some obj_id → row !! "frame" = None →
  process_row V str csv get_heading_func row w = (inl (KeyError "frame"), w).
Proof.
  intros Ho Hf. unfold process_row, getcol, mbind, M_bind, mret, M_ret, raise.
  by rewrite Ho, Hf.
Qed.

(** X3: a table whose rows lack a column that is read stops the call at
    its first row, with the [KeyError] of the first column missing in the
    order [obj_id], [frame], [heading] ([heading] being read only when
    [stim_position_screen] is absent); the output file, created before the
    loop, is left with the header line alone, and the closing line is not
    printed. *)
Theorem missing_column_leaves_header_only p z row rest k out
    get_heading_func w :
  open_zip p = inr z →
  z !! "stim.csv" = Some (inr (row :: rest)) ∨
    (z !! "stim.csv" = None ∧ z !! "opto.csv" = Some (inr (row :: rest))) →
  (row !! "obj_id" = None ∧ k = "obj_id") ∨
    (is_Some (row !! "obj_id") ∧ row !! "frame" = None ∧ k = "frame") ∨
    (is_Some (row !! "obj_id") ∧ is_Some (row !! "frame") ∧
     row !! "stim_position_screen" = None ∧ row !! "heading" = None ∧
     k = "heading") →
  process_braidz_file V str open_zip p out get_heading_func w =
    (inl (KeyError k),
     World (<[output_file_of p out := "obj_id,frame,stim_heading" +:+ NL]>
              (files w))
       (stdout w)).
Proof.
  intros Ho Hz Hk.
  assert (∀ csv w0,
            process_row V str csv get_heading_func row w0
            = (inl (KeyError k), w0)) as Hraise.
  { intros csv w0.
    destruct Hk as [[Hobj ->] | [([o Hobj] & Hfr & ->) |
                                 ([o Hobj] & [f Hfr] & Hs & Hh & ->)]].
    - by apply process_row_no_obj_id.
    - by eapply process_row_no_frame.
    - by eapply process_row_neither. }
  rewrite (process_braidz_file_partial str open_zip p out get_heading_func
             [] [] row rest k w).
  - cbn [csv_rows foldr]. by rewrite string_app_nil_r.
  - by eapply read_stim_table.
  - done.
  - exact Hraise.
Qed.

(** X4: a second call on the same archive changes no file: what the first
    call wrote is written again, the same. *)
Theorem rerun_changes_no_file p out get_heading_func w :
  let once := process_braidz_file V str open_zip p out get_heading_func w in
  let twice :=
    process_braidz_file V str open_zip p out get_heading_func once.2 in
  twice.1 = once.1 ∧ files twice.2 = files once.2.
Proof.
  destruct (process_braidz_file_effect str open_zip p out get_heading_func)
    as (r & text & lines & _ & Heff).
  cbv zeta. rewrite (Heff w). cbn [fst snd]. rewrite Heff. cbn [fst snd files].
  split; [done |]. destruct text; [by rewrite insert_insert_eq | done].
Qed.

(** X5: a call touches no file but the output file of its archive. *)
Theorem other_files_untouched p out get_heading_func w (q : string) :
  q ≠ output_file_of p out →
  files (process_braidz_file V str open_zip p out get_heading_func w).2 !! q
  = files w !! q.
Proof.
  intros Hq.
  destruct (process_braidz_file_effect str open_zip p out get_heading_func)
    as (r & text & lines & _ & Heff).
  rewrite Heff. cbn [snd files].
  destruct text; [by rewrite lookup_insert_ne | done].
Qed.

(** X7: of two archives with the same output name, processed one after the
    other, the output file holds the rows of the second only. *)
Theorem same_name_overwrites p1 p2 z1 z2 stim1 stim2 cells1 cells2 out
    get_heading_func w :
  output_file_of p1 out = output_file_of p2 out →
  open_zip p1 = inr z1 →
  z1 !! "stim.csv" = Some (inr stim1) ∨
    (z1 !! "stim.csv" = None ∧ z1 !! "opto.csv" = Some (inr stim1)) →
  open_zip p2 = inr z2 →
  z2 !! "stim.csv" = Some (inr stim2) ∨
    (z2 !! "stim.csv" = None ∧ z2 !! "opto.csv" = Some (inr stim2)) →
  mapM (row_cells V get_heading_func) stim1 = Some cells1 →
  mapM (row_cells V get_heading_func) stim2 = Some cells2 →
  ∃ w',
    process_all V str open_zip [p1; p2] out get_heading_func w = (inr (), w') ∧
    files w' =
      <[output_file_of p2 out := csv_header +:+ csv_rows V str cells2]>
        (files w).
Proof.
  intros Hname Ho1 Hz1 Ho2 Hz2 Hc1 Hc2.
  rewrite process_all_cons.
  rewrite (process_braidz_file_rows str open_zip p1 out get_heading_func
             stim1 cells1 w (read_stim_table p1 z1 stim1 w Ho1 Hz1) Hc1).
  rewrite process_all_cons.
  match goal with
  | |- context [process_braidz_file _ _ _ p2 _ _ ?w1] =>
      rewrite (process_braidz_file_rows str open_zip p2 out get_heading_func
                 stim2 cells2 w1 (read_stim_table p2 z2 stim2 w1 Ho2 Hz2) Hc2)
  end.
  eexists. split; [reflexivity |]. cbn [files].
  by rewrite Hname, insert_insert_eq.
Qed.

Lemma process_all_unreadable ps out get_heading_func w :
  Forall (read_fails V open_zip) ps →
  ∃ lines,
    length lines = length ps ∧
    process_all V str open_zip ps out get_heading_func w =
      (inr (), World (files w) (stdout w ++ lines)).
Proof.
  intros Hps. revert w.
  induction Hps as [|p ps Hp Hps IH]; intros w.
  { exists []. split; [done |]. rewrite app_nil_r. by destruct w. }
  destruct (read_fails_outcome str open_zip p w Hp) as [line Hl].
  destruct (IH (World (files w) (stdout w ++ [line]))) as (lines & Hlen & Hrest).
  exists (line :: lines). split; [simpl; lia |].
  rewrite process_all_cons, Hl, Hrest. cbn [files stdout].
  by rewrite <- app_assoc.
Qed.

(** X8: a batch of archives none of which gives a table leaves every file
    as it was and prints one line for each archive. *)
Theorem unreadable_batch_writes_nothing ps out get_heading_func w :
  Forall (read_fails V open_zip) ps →
  ∃ lines,
    length lines = length ps ∧
    process_all V str open_zip ps out get_heading_func w =
      (inr (), World (files w) (stdout w ++ lines)).
Proof. apply process_all_unreadable. Qed.

(** X9: a batch may be cut in two: processing a list of archives is
    processing a first part and then, unless that raised, the rest. *)
Theorem process_all_app ps1 ps2 out get_heading_func w :
  process_all V str open_zip (ps1 ++ ps2) out get_heading_func w =
    match process_all V str open_zip ps1 out get_heading_func w with
    | (inl e, w') => (inl e, w')
    | (inr _, w') => process_all V str open_zip ps2 out get_heading_func w'
    end.
Proof.
  revert w. induction ps1 as [|p ps1 IH]; intros w; [done |].
  cbn [app]. rewrite !process_all_cons.
  destruct (process_braidz_file _ _ _ _ _ _ _) as [[e | b] w']; [done |].
  apply IH.
Qed.

End BatchExtras.

(** X1 at an archive whose [opto.csv] has one row. *)
Lemma table_written_in_order_sample :
  length [(Some 1%R, Some 10%R, Some 1%R)] = length [heading_row] ∧
  process_braidz_file np.float64 sample_str sample_open_zip "data/opto.braidz"
    "out" (λ v, v) (World ∅ []) =
    (inr true,
     World (<[output_file_of "data/opto.braidz" "out" :=
                csv_header
                +:+ csv_rows np.float64 sample_str
                      [(Some 1%R, Some 10%R, Some 1%R)]]> ∅)
       ([] ++ ["Interpolated " +:+ "data/opto.braidz" +:+ " to "
               +:+ output_file_of "data/opto.braidz" "out"])).
Proof.
  apply (table_written_in_order sample_str sample_open_zip "data/opto.braidz"
           {[ "opto.csv" := inr [heading_row] ]} [heading_row]).
  - reflexivity.
  - right. split; reflexivity.
  - reflexivity.
Defined.

(** X2 at a row that has both columns. *)
Lemma screen_position_preferred_to_heading_sample :
  process_row np.float64 sample_str "out/fly.csv" (λ v, v) mixed_row
    (World ∅ []) =
    (inr (),
     World (<["out/fly.csv" :=
                default EmptyString
                  (files (World ∅ []) !! "out/fly.csv")
                +:+ csv_row np.float64 sample_str (Some 1%R) (Some 10%R)
                      (Some 160%R)]> ∅)
       []).
Proof.
  apply (screen_position_preferred_to_heading sample_str "out/fly.csv"
           (λ v, v) mixed_row (Some 1%R) (Some 10%R) (Some 160%R) (Some 1%R)
           (World ∅ [])); reflexivity.
Defined.

(** X3 at a table without a [frame] column. *)
Lemma missing_column_leaves_header_only_sample :
  process_braidz_file np.float64 sample_str frameless_open_zip
    "data/frameless.braidz" "out" (λ v, v) (World ∅ []) =
    (inl (KeyError "frame"),
     World (<[output_file_of "data/frameless.braidz" "out" :=
                "obj_id,frame,stim_heading" +:+ NL]> ∅)
       []).
Proof.
  apply (missing_column_leaves_header_only sample_str frameless_open_zip
           "data/frameless.braidz" {[ "opto.csv" := inr frameless_rows ]}
           {[ "obj_id" := Some 1%R; "heading" := Some 1%R ]}
           [ {[ "obj_id" := Some 2%R; "heading" := Some 0%R ]} ]).
  - reflexivity.
  - right. split; reflexivity.
  - right. left. split; [eexists; reflexivity |]. split; reflexivity.
Defined.

(** X5 at a file of another name. *)
Lemma other_files_untouched_sample :
  files (process_braidz_file np.float64 sample_str sample_open_zip
           "data/opto.braidz" "out" (λ v, v)
           (World {[ "out/notes.txt" := "keep" ]} [])).2 !! "out/notes.txt"
  = files (World {[ "out/notes.txt" := "keep" ]} []) !! "out/notes.txt".
Proof.
  apply (other_files_untouched sample_str sample_open_zip "data/opto.braidz"
           "out" (λ v, v) (World {[ "out/notes.txt" := "keep" ]} [])
           "out/notes.txt").
  discriminate.
Defined.

(** X7 at two archives named [fly.braidz] in two directories. *)
Lemma same_name_overwrites_sample :
  ∃ w',
    process_all np.float64 sample_str twin_open_zip
      ["data/a/fly.braidz"; "data/b/fly.braidz"] "out" (λ v, v) (World ∅ []) =
      (inr (), w') ∧
    files w' =
      <[output_file_of "data/b/fly.braidz" "out" :=
          csv_header
          +:+ csv_rows np.float64 sample_str
                [(Some 1%R, Some 10%R, Some 1%R)]]> ∅.
Proof.
  apply (same_name_overwrites sample_str twin_open_zip
           "data/a/fly.braidz" "data/b/fly.braidz"
           {[ "stim.csv" := inr stim_rows ]}
           {[ "opto.csv" := inr [heading_row] ]}
           stim_rows [heading_row]
           [(Some 1%R, Some 10%R, Some 0%R); (Some 1%R, Some 11%R, Some 320%R)]
           [(Some 1%R, Some 10%R, Some 1%R)]).
  - reflexivity.
  - reflexivity.
  - left. reflexivity.
  - reflexivity.
  - right. split; reflexivity.
  - reflexivity.
  - reflexivity.
Defined.

(** X8 at an archive that cannot be opened and one with neither member. *)
Lemma unreadable_batch_writes_nothing_sample :
  ∃ lines,
    length lines = length ["data/missing.braidz"; "data/none.braidz"] ∧
    process_all np.float64 sample_str sample_open_zip
      ["data/missing.braidz"; "data/none.braidz"] "out" (λ v, v)
      (World ∅ []) =
      (inr (), World ∅ ([] ++ lines)).
Proof.
  apply (unreadable_batch_writes_nothing sample_str sample_open_zip
           ["data/missing.braidz"; "data/none.braidz"] "out" (λ v, v)
           (World ∅ [])).
  repeat constructor.
Defined.

(** ** The name of the output file *)

Lemma string_app_cons (a : ascii) (s t : string) :
  String a s +:+ t = String a (s +:+ t).
Proof. reflexivity. Qed.

Lemma str_contains_app (c : ascii) (s t : string) :
  str_contains c (s +:+ t) = str_contains c s || str_contains c t.
Proof.
  induction s as [|a s IH]; [done |].
  rewrite string_app_cons. cbn [str_contains]. rewrite IH.
  by rewrite orb_assoc.
Qed.

Lemma basename_from_no_sep (acc s : string) :
  str_contains "/" s = false → os_path.basename_from acc s = acc +:+ s.
Proof.
  revert acc. induction s as [|a s IH]; intros acc Hs.
  { by rewrite string_app_nil_r. }
  cbn [str_contains] in Hs. apply orb_false_elim in Hs as [Ha Hs].
  apply bool_decide_eq_false in Ha.
  cbn [os_path.basename_from]. rewrite decide_False by done.
  rewrite IH by done. by rewrite string_app_assoc.
Qed.

Lemma basename_from_after_sep (acc d p : string) :
  os_path.basename_from acc (d +:+ "/" +:+ p) = os_path.basename p.
Proof.
  revert acc. induction d as [|a d IH]; intros acc.
  { change ("" +:+ "/" +:+ p) with (String "/" p).
    cbn [os_path.basename_from]. by rewrite decide_True. }
  rewrite string_app_cons. cbn [os_path.basename_from].
  destruct (decide (a = "/"%char)); apply IH.
Qed.

Lemma basename_from_free (acc p : string) :
  str_contains "/" acc = false →
  str_contains "/" (os_path.basename_from acc p) = false.
Proof.
  revert acc. induction p as [|a p IH]; intros acc Hacc; [done |].
  cbn [os_path.basename_from].
  destruct (decide (a = "/"%char)) as [-> | Ha]; [by apply IH |].
  apply IH. rewrite str_contains_app, Hacc. cbn [str_contains].
  by rewrite bool_decide_false.
Qed.

Lemma split_head_free (c : ascii) (s : string) :
  str_contains c (split_head c s) = false.
Proof.
  induction s as [|a s IH]; [done |]. cbn [split_head].
  destruct (decide (a = c)) as [-> | Ha]; [done |].
  cbn [str_contains]. by rewrite bool_decide_false, IH.
Qed.

Lemma split_head_keeps_free (c d : ascii) (s : string) :
  str_contains d s = false → str_contains d (split_head c s) = false.
Proof.
  induction s as [|a s IH]; [done |]. cbn [str_contains split_head].
  intros [Ha Hs]%orb_false_elim.
  destruct (decide (a = c)); [done |].
  cbn [str_contains]. by rewrite Ha, IH.
Qed.

Lemma split_head_app (c : ascii) (s r : string) :
  str_contains c s = false → split_head c (s +:+ String c r) = s.
Proof.
  induction s as [|a s IH].
  { intros _. change ("" +:+ String c r) with (String c r).
    cbn [split_head]. by rewrite decide_True. }
  cbn [str_contains]. intros [Ha Hs]%orb_false_elim.
  apply bool_decide_eq_false in Ha.
  rewrite string_app_cons. cbn [split_head].
  rewrite decide_False by done. by rewrite IH.
Qed.

Lemma startswith_sep_free (s t : string) :
  str_contains "/" s = false → startswith_sep t = false →
  startswith_sep (s +:+ t) = false.
Proof.
  destruct s as [|a s]; [done |]. cbn [str_contains].
  intros [Ha _]%orb_false_elim _. rewrite string_app_cons. exact Ha.
Qed.

(** X10: the directories of the archive play no part in the name of the
    output file: archives of the same file name in different directories
    are written to the same output file. *)
Theorem output_name_ignores_directory (d p out : string) :
  output_file_of (d +:+ "/" +:+ p) out = output_file_of p out.
Proof.
  unfold output_file_of, os_path.basename at 1.
  by rewrite basename_from_after_sep.
Qed.

(** X11: the output file lies in the output directory itself: its name is
    the output directory, a separator unless the directory is empty or ends
    with one, a stem that holds neither a separator nor a dot, and
    [.csv]. *)
Theorem output_name_shape (p out : string) :
  ∃ stem,
    str_contains "/" stem = false ∧ str_contains "." stem = false ∧
    output_file_of p out =
      (if bool_decide (out = EmptyString) || endswith out "/"
       then out else out +:+ "/") +:+ stem +:+ ".csv".
Proof.
  exists (split_head "." (os_path.basename p)).
  assert (str_contains "/" (split_head "." (os_path.basename p)) = false)
    as Hsep.
  { apply split_head_keeps_free. by apply basename_from_free. }
  split; [done |]. split; [apply split_head_free |].
  unfold output_file_of, os_path.join. cbn [foldl]. unfold os_path.join2.
  rewrite startswith_sep_free by done.
  destruct (bool_decide (out = EmptyString) || endswith out "/"); [done |].
  by rewrite string_app_assoc.
Qed.

(** X12: what follows the first dot of the file name is dropped, not only
    the extension. *)
Theorem output_name_drops_after_first_dot (stem rest out : string) :
  str_contains "/" stem = false → str_contains "." stem = false →
  str_contains "/" rest = false →
  output_file_of (stem +:+ "." +:+ rest) out =
    os_path.join out [stem +:+ ".csv"].
Proof.
  intros Hs Hd Hr. unfold output_file_of, os_path.basename.
  rewrite basename_from_no_sep.
  - change ("" +:+ stem +:+ "." +:+ rest) with (stem +:+ String "." rest).
    by rewrite split_head_app.
  - rewrite str_contains_app, Hs.
    change ("." +:+ rest) with (String "."%char rest).
    cbn [str_contains]. by rewrite Hr.
Qed.

(** X12 at a file name with three dots. *)
Lemma output_name_drops_after_first_dot_sample :
  output_file_of ("fly" +:+ "." +:+ "v2.2024.braidz") "out" =
    os_path.join "out" ["fly" +:+ ".csv"].
Proof.
  apply (output_name_drops_after_first_dot "fly" "v2.2024.braidz" "out");
    reflexivity.
Defined.

(** ** The command as a whole *)

Section BatchOutcome.
Context {V : Type} (str : V → string) (open_zip : string → exn + ZipFile V).

(** A batch touches the output files of its archives only and, where
    writing succeeds, raises nothing but the [KeyError] of a missing
    column. *)
Lemma process_all_effect ps out get_heading_func w :
  let res := process_all V str open_zip ps out get_heading_func w in
  (∀ q : string, q ∉ (λ p, output_file_of p out) <$> ps →
     files res.2 !! q = files w !! q) ∧
  (∀ e, res.1 = inl e →
     ∃ k, k ∈ ["obj_id"; "frame"; "heading"] ∧ e = KeyError k) ∧
  ∃ lines, stdout res.2 = stdout w ++ lines.
Proof.
  revert w. induction ps as [|p ps IH]; intros w.
  { cbv zeta. split; [done |]. split; [done |]. exists []. by rewrite app_nil_r. }
  cbv zeta. rewrite process_all_cons.
  destruct (process_braidz_file_effect str open_zip p out get_heading_func)
    as (r & text & lines & Hr & Heff).
  rewrite Heff. destruct r as [e | b].
  - cbn [fst snd files stdout]. split.
    + intros q Hq. rewrite fmap_cons, not_elem_of_cons in Hq.
      destruct Hq as [Hq _].
      destruct text; [by rewrite lookup_insert_ne | done].
    + split; [| by eexists]. intros e' [= <-]. by apply Hr.
  - match goal with
    | |- context [process_all _ _ _ ps _ _ ?w1] =>
        destruct (IH w1) as (Hfiles & Hexn & lines' & Hout)
    end.
    split; [| split].
    + intros q Hq. rewrite fmap_cons, not_elem_of_cons in Hq.
      destruct Hq as [Hq Hps]. rewrite (Hfiles q Hps). cbn [files].
      destruct text; [by rewrite lookup_insert_ne | done].
    + exact Hexn.
    + exists (lines ++ lines'). rewrite Hout. cbn [stdout].
      by rewrite app_assoc.
Qed.

End BatchOutcome.

Section MainExtras.
Context (minval : nat) (str : np.float64 → string)
  (open_zip : string → exn + ZipFile np.float64)
  (read_calibration : string → exn + calibration)
  (path_exists isfile isdir : string → bool)
  (glob : string → bool → list string).

Local Abbreviation main_ :=
  (main minval str open_zip read_calibration path_exists isfile isdir glob).
Local Abbreviation inputs := (main_inputs isfile isdir glob).
Local Abbreviation loaded := (calibration_of minval read_calibration).

(** The world after the output directory has been seen to. *)
Local Abbreviation prepared args w :=
  (if path_exists (output_path args) then w
   else World (files w)
          (stdout w ++ ["Created output directory: " +:+ output_path args])).

(** The command, as a run of the batch loop over its inputs. *)
Lemma main_run args w :
  main_ args w =
    match loaded args with
    | inl e => (inl e, prepared args w)
    | inr f =>
        match inputs args with
        | [] =>
            print (if isdir (braidz_path args)
                   then "No braidz files found in " +:+ braidz_path args
                   else "Error: " +:+ braidz_path args
                        +:+ " is not a valid braidz file or directory")
              (prepared args w)
        | ps =>
            (process_all np.float64 str open_zip ps (output_path args) f;;
             print "Processing complete!") (prepared args w)
        end
    end.
Proof.
  unfold main, calibration_of, main_inputs.
  unfold mbind at 1, M_bind at 1.
  assert ((if path_exists (output_path args) then mret ()
           else print ("Created output directory: " +:+ output_path args)) w
          = (inr (), prepared args w)) as ->.
  { by destruct (path_exists (output_path args)), w. }
  generalize (prepared args w). clear w. intros w.
  unfold mbind at 1, M_bind at 1.
  destruct (screen2heading_path args) as [path |].
  - unfold mbind at 1, M_bind at 1, lift at 1.
    destruct (read_calibration path) as [e | c]; [done |].
    cbn [mbind exn_bind]. unfold mret at 1, M_ret at 1.
    unfold mbind at 1, M_bind at 1, lift at 1.
    destruct (create_interpolation_function minval (Some c)) as [e | f];
      [done |].
    destruct (isfile (braidz_path args) && endswith (braidz_path args) ".braidz").
    { unfold process_all. cbn [for_each]. unfold mbind, M_bind, mret, M_ret.
      by destruct (process_braidz_file _ _ _ _ _ _ _) as [[|] ?]. }
    destruct (isdir (braidz_path args)); [| done].
    cbv zeta. destruct (glob _ _) as [|p ps]; [done |].
    by rewrite bool_decide_false.
  - unfold mret at 1, M_ret at 1.
    unfold mbind at 1, M_bind at 1, lift at 1.
    destruct (create_interpolation_function minval None) as [e | f];
      [done |].
    destruct (isfile (braidz_path args) && endswith (braidz_path args) ".braidz").
    { unfold process_all. cbn [for_each]. unfold mbind, M_bind, mret, M_ret.
      by destruct (process_braidz_file _ _ _ _ _ _ _) as [[|] ?]. }
    destruct (isdir (braidz_path args)); [| done].
    cbv zeta. destruct (glob _ _) as [|p ps]; [done |].
    by rewrite bool_decide_false.
Qed.

End MainExtras.

Section MainTheorems.
Context (minval : nat) (str : np.float64 → string)
  (open_zip : string → exn + ZipFile np.float64)
  (read_calibration : string → exn + calibration)
  (path_exists isfile isdir : string → bool)
  (glob : string → bool → list string).

Lemma prepared_world args w :
  ∃ pre,
    (if path_exists (output_path args) then w
     else World (files w)
            (stdout w ++ ["Created output directory: " +:+ output_path args]))
    = World (files w) (stdout w ++ pre) ∧
    "Processing complete!" ∉ pre.
Proof.
  destruct (path_exists (output_path args)).
  - exists []. split; [by rewrite app_nil_r; destruct w | apply not_elem_of_nil].
  - eexists. split; [done |].
    apply not_elem_of_cons. split; [discriminate | apply not_elem_of_nil].
Qed.

(** X13: the command touches no file but the output files of the archives
    it is given, whatever happens on the way. *)
Theorem main_touches_only_outputs args w (q : string) :
  q ∉ (λ p, output_file_of p (output_path args))
        <$> main_inputs isfile isdir glob args →
  files (main minval str open_zip read_calibration path_exists isfile isdir
           glob args w).2 !! q
  = files w !! q.
Proof.
  intros Hq. rewrite main_run.
  destruct (prepared_world args w) as (pre & -> & _).
  destruct (calibration_of minval read_calibration args) as [e | f]; [done |].
  destruct (main_inputs isfile isdir glob args) as [|p ps] eqn:Hin; [done |].
  unfold mbind, M_bind.
  destruct (process_all_effect str open_zip (p :: ps) (output_path args) f
              (World (files w) (stdout w ++ pre))) as (Hfiles & _ & _).
  specialize (Hfiles q Hq). cbv zeta in Hfiles.
  by destruct (process_all _ _ _ _ _ _ _) as [[e | []] w'].
Qed.

(** X15: when the calibration cannot be loaded, because the file cannot be
    read or the construction fails, the command raises that exception
    before any archive is looked at: no file is written. *)
Theorem main_calibration_failure_writes_nothing args w e :
  calibration_of minval read_calibration args = inl e →
  ∃ lines, main minval str open_zip read_calibration path_exists isfile isdir glob
      args w = (inl e, World (files w) (stdout w ++ lines)).
Proof.
  intros He. rewrite main_run, He.
  destruct (prepared_world args w) as (pre & -> & _). by eexists.
Qed.

(** X16: when the path is neither an archive nor a directory that holds
    one, the command ends without an exception, writes no file, and does
    not print its closing line. *)
Theorem main_without_inputs args w f :
  calibration_of minval read_calibration args = inr f → main_inputs isfile isdir glob args = [] →
  ∃ lines,
    main minval str open_zip read_calibration path_exists isfile isdir glob
      args w = (inr (), World (files w) (stdout w ++ lines)) ∧
    "Processing complete!" ∉ lines.
Proof.
  intros Hf Hin. rewrite main_run, Hf, Hin.
  destruct (prepared_world args w) as (pre & -> & Hpre).
  unfold print. cbn [files stdout]. eexists. split.
  { by rewrite <- app_assoc. }
  apply not_elem_of_app. split; [done |].
  apply not_elem_of_cons. split; [| apply not_elem_of_nil].
  destruct (isdir (braidz_path args)); discriminate.
Qed.

(** X17: when none of the archives gives a table, the command still ends
    with its closing line, without an exception and without a file
    written. *)
Theorem main_completes_when_all_skipped args w f :
  calibration_of minval read_calibration args = inr f → main_inputs isfile isdir glob args ≠ [] →
  Forall (read_fails np.float64 open_zip) (main_inputs isfile isdir glob args) →
  ∃ lines,
    main minval str open_zip read_calibration path_exists isfile isdir glob
      args w =
      (inr (),
       World (files w) (stdout w ++ lines ++ ["Processing complete!"])).
Proof.
  intros Hf Hne Hall. rewrite main_run, Hf.
  destruct (prepared_world args w) as (pre & -> & _).
  destruct (main_inputs isfile isdir glob args) as [|p ps] eqn:Hin; [done |].
  destruct (process_all_unreadable str open_zip (p :: ps) (output_path args)
              f (World (files w) (stdout w ++ pre)) Hall)
    as (lines & _ & Hrun).
  unfold mbind, M_bind. rewrite Hrun. unfold print. cbn [files stdout].
  exists (pre ++ lines). by rewrite !app_assoc.
Qed.

End MainTheorems.

(** X13 at a directory of two archives and a file of another name. *)
Lemma main_touches_only_outputs_sample :
  files (main 2 sample_str sample_open_zip sample_read_calibration
           (λ _, true) (λ _, false) sample_isdir sample_glob
           (Build_Namespace "data" "out" None false)
           (World {[ "out/notes.txt" := "keep" ]} [])).2 !! "out/notes.txt"
  = files (World {[ "out/notes.txt" := "keep" ]} []) !! "out/notes.txt".
Proof.
  apply (main_touches_only_outputs 2 sample_str sample_open_zip
           sample_read_calibration (λ _, true) (λ _, false) sample_isdir
           sample_glob (Build_Namespace "data" "out" None false)
           (World {[ "out/notes.txt" := "keep" ]} []) "out/notes.txt").
  vm_compute. intros H.
  repeat (apply elem_of_cons in H as [H | H]; [discriminate |]).
  by apply elem_of_nil in H.
Defined.

(** X15 at a calibration path that cannot be read. *)
Lemma main_calibration_failure_writes_nothing_sample :
  ∃ lines,
    main 2 sample_str sample_open_zip sample_read_calibration (λ _, true)
      (λ _, false) sample_isdir sample_glob
      (Build_Namespace "data" "out" (Some "missing.csv") false)
      (World ∅ []) =
    (inl (OSError "No such file or directory"), World ∅ ([] ++ lines)).
Proof.
  apply (main_calibration_failure_writes_nothing 2 sample_str sample_open_zip
           sample_read_calibration (λ _, true) (λ _, false) sample_isdir
           sample_glob
           (Build_Namespace "data" "out" (Some "missing.csv") false)
           (World ∅ [])).
  reflexivity.
Defined.

(** X16 at a path that is neither a file nor a directory. *)
Lemma main_without_inputs_sample :
  ∃ lines,
    main 2 sample_str sample_open_zip sample_read_calibration (λ _, false)
      (λ _, false) sample_isdir sample_glob
      (Build_Namespace "nowhere" "out" None false) (World ∅ []) =
    (inr (), World ∅ ([] ++ lines)) ∧
    "Processing complete!" ∉ lines.
Proof.
  eapply (main_without_inputs 2 sample_str sample_open_zip
            sample_read_calibration (λ _, false) (λ _, false) sample_isdir
            sample_glob (Build_Namespace "nowhere" "out" None false)
            (World ∅ [])).
  - reflexivity.
  - reflexivity.
Defined.

(** X17 at a single archive with neither member. *)
Lemma main_completes_when_all_skipped_sample :
  ∃ lines,
    main 2 sample_str sample_open_zip sample_read_calibration (λ _, true)
      (λ _, true) sample_isdir sample_glob
      (Build_Namespace "data/none.braidz" "out" None false) (World ∅ []) =
    (inr (), World ∅ ([] ++ lines ++ ["Processing complete!"])).
Proof.
  eapply (main_completes_when_all_skipped 2 sample_str sample_open_zip
            sample_read_calibration (λ _, true) (λ _, true) sample_isdir
            sample_glob (Build_Namespace "data/none.braidz" "out" None false)
            (World ∅ [])).
  - reflexivity.
  - discriminate.
  - repeat constructor.
Defined.

(** ** The heading function between and beyond the calibration points *)

Lemma ascending_pairs (g : R → R) (table : list (R * R)) :
  StronglySorted Rlt table.*1 →
  StronglySorted (λ p q : R * R, p.1 <= q.1)
    ((λ p, (p.1, g p.2)) <$> table).
Proof.
  induction table as [|a table IH]; [constructor |].
  rewrite !fmap_cons. intros [Hs Ha]%StronglySorted_inv.
  constructor; [by apply IH |].
  apply Forall_forall. intros q [p [-> Hp]]%list_elem_of_fmap.
  rewrite Forall_forall in Ha.
  specialize (Ha p.1 (list_elem_of_fmap_2 fst _ _ Hp)). simpl. lra.
Qed.

Lemma ascending_components (g : R → R) (table : list (R * R)) :
  StronglySorted Rlt table.*1 →
  (np.argsort_take (zip table.*1 (g <$> table.*2))).*1 = table.*1 ∧
  (np.argsort_take (zip table.*1 (g <$> table.*2))).*2 = g <$> table.*2.
Proof.
  intros Hs. rewrite zip_component.
  rewrite (argsort_take_ascending _ (ascending_pairs g table Hs)).
  rewrite <- !list_fmap_compose. split; by apply list_fmap_ext.
Qed.

(** The value on the segment the clipped index selects. *)
Lemma heading_on_segment (minval : nat) (table : list (R * R)) (j : nat)
    (s0 h0 s1 h1 v : R) :
  (minval ≤ 2)%nat → StronglySorted Rlt table.*1 →
  table !! j = Some (s0, h0) → table !! S j = Some (s1, h1) →
  np.clip (Z.of_nat (np.searchsorted table.*1 v)) 1
    (Z.of_nat (length table.*1) - 1) = Z.of_nat (S j) →
  ∃ f, create_interpolation_function minval (Some table) = inr f ∧
       f (Some v) =
         Some (np.arctan2
                 ((sin h1 - sin h0) / (s1 - s0) * (v - s0) + sin h0)
                 ((cos h1 - cos h0) / (s1 - s0) * (v - s0) + cos h0)).
Proof.
  intros Hm Hs H0 H1 Hclip.
  pose proof (lookup_lt_Some _ _ _ H1) as Hlen.
  assert (s0 < s1) as Hlt.
  { eapply (sorted_lookup_lt table.*1 j (S j)); [done | | | lia].
    - by rewrite list_lookup_fmap, H0.
    - by rewrite list_lookup_fmap, H1. }
  assert (get_heading
            (Build_interp1d
               (np.argsort_take (zip table.*1 (cos <$> table.*2))).*1
               (np.argsort_take (zip table.*1 (cos <$> table.*2))).*2)
            (Build_interp1d
               (np.argsort_take (zip table.*1 (sin <$> table.*2))).*1
               (np.argsort_take (zip table.*1 (sin <$> table.*2))).*2)
            (Some v)
          = Some (np.arctan2
                    ((sin h1 - sin h0) / (s1 - s0) * (v - s0) + sin h0)
                    ((cos h1 - cos h0) / (s1 - s0) * (v - s0) + cos h0)))
    as Hval.
  { unfold get_heading. cbn [mbind option_bind].
    destruct (ascending_components cos table Hs) as [-> ->].
    destruct (ascending_components sin table Hs) as [-> ->].
    assert (∀ g : R → R,
              call_linear (Build_interp1d table.*1 (g <$> table.*2)) v
              = Some ((g h1 - g h0) / (s1 - s0) * (v - s0) + g h0)) as Hcall.
    { intros g.
      destruct (call_linear_segment
                  (Build_interp1d table.*1 (g <$> table.*2)) v j)
        as (x_lo & x_hi & y_lo & y_hi & Hxl & Hxh & Hyl & Hyh & ->).
      - cbn [ip_x ip_y]. by rewrite !length_fmap.
      - exact Hclip.
      - cbn [ip_x]. by rewrite length_fmap.
      - cbn [ip_x ip_y] in *.
        rewrite list_lookup_fmap, H0 in Hxl.
        rewrite list_lookup_fmap, H1 in Hxh.
        rewrite !list_lookup_fmap, H0 in Hyl.
        rewrite !list_lookup_fmap, H1 in Hyh.
        cbn in Hxl, Hxh, Hyl, Hyh.
        injection Hxl as <-. injection Hxh as <-.
        injection Hyl as <-. injection Hyh as <-.
        unfold np.divide.
        destruct (Req_dec_T (s1 - s0) 0); [lra | done]. }
    by rewrite !Hcall. }
  eexists. split; [| exact Hval].
  apply create_interpolation_function_inr. simpl. lia.
Qed.

(** X18: for a table in ascending order, between two neighbouring
    calibration points the heading is the angle of the point that lies on
    the straight line between their unit vectors. *)
Theorem heading_between_neighbours (minval : nat) (table : list (R * R))
    (j : nat) (s0 h0 s1 h1 v : R) :
  (minval ≤ 2)%nat → StronglySorted Rlt table.*1 →
  table !! j = Some (s0, h0) → table !! S j = Some (s1, h1) →
  s0 < v <= s1 →
  ∃ f, create_interpolation_function minval (Some table) = inr f ∧
       f (Some v) =
         Some (np.arctan2
                 ((sin h1 - sin h0) / (s1 - s0) * (v - s0) + sin h0)
                 ((cos h1 - cos h0) / (s1 - s0) * (v - s0) + cos h0)).
Proof.
  intros Hm Hs H0 H1 Hv. apply (heading_on_segment minval table j); try done.
  pose proof (lookup_lt_Some _ _ _ H1) as Hlen.
  rewrite (searchsorted_in_segment table.*1 j s0 s1 v); try done.
  - rewrite length_fmap. unfold np.clip. lia.
  - by rewrite list_lookup_fmap, H0.
  - by rewrite list_lookup_fmap, H1.
Qed.

(** X19: below the first calibration point the line of the first segment
    is continued: the value is not held at the first heading. *)
Theorem heading_below_first (minval : nat) (table : list (R * R))
    (s0 h0 s1 h1 v : R) :
  (minval ≤ 2)%nat → StronglySorted Rlt table.*1 →
  table !! 0%nat = Some (s0, h0) → table !! 1%nat = Some (s1, h1) →
  v <= s0 →
  ∃ f, create_interpolation_function minval (Some table) = inr f ∧
       f (Some v) =
         Some (np.arctan2
                 ((sin h1 - sin h0) / (s1 - s0) * (v - s0) + sin h0)
                 ((cos h1 - cos h0) / (s1 - s0) * (v - s0) + cos h0)).
Proof.
  intros Hm Hs H0 H1 Hv. apply (heading_on_segment minval table 0); try done.
  pose proof (lookup_lt_Some _ _ _ H1) as Hlen.
  destruct table as [|[a b] table]; [done |]. simplify_eq/=.
  destruct (Rlt_dec s0 v); [lra |]. rewrite length_fmap. unfold np.clip. lia.
Qed.

Lemma searchsorted_above (xs : list R) (v : R) :
  Forall (λ x, x < v) xs → np.searchsorted xs v = length xs.
Proof.
  induction 1 as [|x xs Hx _ IH]; [done |]. simpl.
  destruct (Rlt_dec x v); [by rewrite IH | done].
Qed.

Lemma sorted_below_last (xs : list R) (j : nat) (x v : R) :
  StronglySorted Rlt xs → xs !! j = Some x → length xs = S j → x < v →
  Forall (λ y, y < v) xs.
Proof.
  intros Hs Hj Hlen Hv. apply Forall_lookup. intros i y Hi.
  pose proof (lookup_lt_Some _ _ _ Hi) as Hlt.
  destruct (decide (i = j)) as [-> | Hne]; [by simplify_eq |].
  assert (y < x); [| lra].
  eapply (sorted_lookup_lt xs i j); [done.. | lia].
Qed.

(** X20: above the last calibration point the line of the last segment is
    continued: the screen position is not wrapped round. *)
Theorem heading_above_last (minval : nat) (table : list (R * R))
    (j : nat) (s0 h0 s1 h1 v : R) :
  (minval ≤ 2)%nat → StronglySorted Rlt table.*1 →
  table !! j = Some (s0, h0) → table !! S j = Some (s1, h1) →
  length table = S (S j) → s1 < v →
  ∃ f, create_interpolation_function minval (Some table) = inr f ∧
       f (Some v) =
         Some (np.arctan2
                 ((sin h1 - sin h0) / (s1 - s0) * (v - s0) + sin h0)
                 ((cos h1 - cos h0) / (s1 - s0) * (v - s0) + cos h0)).
Proof.
  intros Hm Hs H0 H1 Hlen Hv.
  apply (heading_on_segment minval table j); try done.
  rewrite searchsorted_above.
  - rewrite length_fmap, Hlen. unfold np.clip. lia.
  - apply (sorted_below_last _ (S j) s1); try done.
    + by rewrite list_lookup_fmap, H1.
    + by rewrite length_fmap.
Qed.

(** X18 at the built-in table, half way between [0] and [80]. *)
Lemma heading_between_neighbours_sample :
  ∃ f, create_interpolation_function 2 (Some SCREEN2HEADING_DATA) = inr f ∧
       f (Some 40) =
         Some (np.arctan2
                 ((sin 1.2179812647799937 - sin 2.3513283485530456)
                    / (80 - 0) * (40 - 0) + sin 2.3513283485530456)
                 ((cos 1.2179812647799937 - cos 2.3513283485530456)
                    / (80 - 0) * (40 - 0) + cos 2.3513283485530456)).
Proof.
  apply (heading_between_neighbours 2 SCREEN2HEADING_DATA 0).
  - lia.
  - simpl. ascending.
  - reflexivity.
  - reflexivity.
  - lra.
Defined.

(** X19 at the built-in table, a hundred screen units below [0]. *)
Lemma heading_below_first_sample :
  ∃ f, create_interpolation_function 2 (Some SCREEN2HEADING_DATA) = inr f ∧
       f (Some (-100)) =
         Some (np.arctan2
                 ((sin 1.2179812647799937 - sin 2.3513283485530456)
                    / (80 - 0) * (-100 - 0) + sin 2.3513283485530456)
                 ((cos 1.2179812647799937 - cos 2.3513283485530456)
                    / (80 - 0) * (-100 - 0) + cos 2.3513283485530456)).
Proof.
  apply (heading_below_first 2 SCREEN2HEADING_DATA).
  - lia.
  - simpl. ascending.
  - reflexivity.
  - reflexivity.
  - lra.
Defined.

(** X20 at the built-in table, at screen position [720]. *)
Lemma heading_above_last_sample :
  ∃ f, create_interpolation_function 2 (Some SCREEN2HEADING_DATA) = inr f ∧
       f (Some 720) =
         Some (np.arctan2
                 ((sin 2.3513283485530456 - sin (-3.0123437340031307))
                    / (640 - 560) * (720 - 560) + sin (-3.0123437340031307))
                 ((cos 2.3513283485530456 - cos (-3.0123437340031307))
                    / (640 - 560) * (720 - 560) + cos (-3.0123437340031307))).
Proof.
  apply (heading_above_last 2 SCREEN2HEADING_DATA 7).
  - lia.
  - simpl. ascending.
  - reflexivity.
  - reflexivity.
  - reflexivity.
  - lra.
Defined.

(** ** The order and the repetition of calibration rows *)

Lemma sorted_perm_unique (l1 l2 : list (R * R)) :
  StronglySorted Rlt l1.*1 → StronglySorted Rlt l2.*1 → l1 ≡ₚ l2 → l1 = l2.
Proof.
  revert l2. induction l1 as [|a l1 IH]; intros l2 H1 H2 Hp.
  { by apply Permutation_nil_l in Hp. }
  destruct l2 as [|b l2]; [by apply Permutation_nil_r in Hp |].
  rewrite fmap_cons in H1, H2.
  apply StronglySorted_inv in H1 as [H1 Ha].
  apply StronglySorted_inv in H2 as [H2 Hb].
  rewrite Forall_forall in Ha, Hb.
  assert (a = b) as <-.
  { assert (a ∈ b :: l2) as Hin by (rewrite <- Hp; apply list_elem_of_here).
    assert (b ∈ a :: l1) as Hin' by (rewrite Hp; apply list_elem_of_here).
    apply elem_of_cons in Hin as [-> | Hin]; [done |].
    apply elem_of_cons in Hin' as [-> | Hin']; [done |].
    pose proof (Hb a.1 (list_elem_of_fmap_2 fst _ _ Hin)).
    pose proof (Ha b.1 (list_elem_of_fmap_2 fst _ _ Hin')). lra. }
  f_equal. apply IH; [done.. |]. by apply Permutation_cons_inv in Hp.
Qed.

Lemma argsort_take_perm_eq (g : R → R) (t1 t2 : list (R * R)) :
  NoDup t1.*1 → t1 ≡ₚ t2 →
  np.argsort_take (zip t1.*1 (g <$> t1.*2))
  = np.argsort_take (zip t2.*1 (g <$> t2.*2)).
Proof.
  intros Hnd Hp.
  assert (NoDup t2.*1) as Hnd2 by (by rewrite <- Hp).
  apply sorted_perm_unique.
  - apply argsort_take_sorted. by rewrite zip_component_fst.
  - apply argsort_take_sorted. by rewrite zip_component_fst.
  - rewrite !argsort_take_perm, !zip_component. by rewrite Hp.
Qed.

(** X21: the order of the rows of a calibration source plays no part: two
    tables with the same rows, of distinct screen positions, give the same
    heading function. *)
Theorem calibration_row_order_irrelevant (minval : nat)
    (t1 t2 : list (R * R)) :
  NoDup t1.*1 → t1 ≡ₚ t2 →
  create_interpolation_function minval (Some t1)
  = create_interpolation_function minval (Some t2).
Proof.
  intros Hnd Hp. unfold create_interpolation_function, init.
  change (default SCREEN2HEADING_DATA (Some t1)) with t1.
  change (default SCREEN2HEADING_DATA (Some t2)) with t2.
  cbv zeta. rewrite !length_fmap, <- (Permutation_length Hp).
  by rewrite (argsort_take_perm_eq cos t1 t2 Hnd Hp),
    (argsort_take_perm_eq sin t1 t2 Hnd Hp).
Qed.

Lemma calibration_row_order_irrelevant_sample :
  create_interpolation_function 2 (Some [(0, 1); (80, 2); (160, 3)])
  = create_interpolation_function 2 (Some [(160, 3); (0, 1); (80, 2)]).
Proof.
  apply (calibration_row_order_irrelevant 2
           [(0, 1); (80, 2); (160, 3)] [(160, 3); (0, 1); (80, 2)]).
  - simpl. distinct_reals.
  - symmetry. apply (Permutation_cons_append [(0, 1); (80, 2)] (160, 3)).
Defined.

(** X22: a screen position given twice is accepted when the function is
    built, and shows only when the function is used: with two rows of the
    same screen position the heading at that position is not a number. *)
Theorem repeated_screen_position_not_a_number (minval : nat) (s h0 h1 : R) :
  (minval ≤ 2)%nat →
  ∃ f, create_interpolation_function minval (Some [(s, h0); (s, h1)]) = inr f ∧
       f (Some s) = None.
Proof.
  intros Hm.
  assert (∀ g : R → R,
            call_linear
              (Build_interp1d
                 (np.argsort_take (zip [(s, h0); (s, h1)].*1
                                       (g <$> [(s, h0); (s, h1)].*2))).*1
                 (np.argsort_take (zip [(s, h0); (s, h1)].*1
                                       (g <$> [(s, h0); (s, h1)].*2))).*2) s
            = None) as Hcall.
  { intros g. simpl. destruct (Rle_dec s s) as [_ | Hn]; [| lra].
    unfold call_linear. simpl.
    destruct (Rlt_dec s s) as [Hlt | _]; [lra |].
    unfold np.getitem, np.clip, np.divide. simpl.
    destruct (Req_dec_T (s - s) 0) as [_ | Hn]; [done | lra]. }
  eexists. split.
  { apply create_interpolation_function_inr. simpl. lia. }
  change (get_heading
            (Build_interp1d
               (np.argsort_take (zip [(s, h0); (s, h1)].*1
                                     (cos <$> [(s, h0); (s, h1)].*2))).*1
               (np.argsort_take (zip [(s, h0); (s, h1)].*1
                                     (cos <$> [(s, h0); (s, h1)].*2))).*2)
            (Build_interp1d
               (np.argsort_take (zip [(s, h0); (s, h1)].*1
                                     (sin <$> [(s, h0); (s, h1)].*2))).*1
               (np.argsort_take (zip [(s, h0); (s, h1)].*1
                                     (sin <$> [(s, h0); (s, h1)].*2))).*2)
            (Some s) = None).
  unfold get_heading. cbn [mbind option_bind].
  by rewrite (Hcall cos).
Qed.

Lemma repeated_screen_position_not_a_number_sample :
  ∃ f, create_interpolation_function 2 (Some [(0, 0); (0, 1)]) = inr f ∧
       f (Some 0) = None.
Proof. apply (repeated_screen_position_not_a_number 2 0 0 1). lia. Defined.
